(** * beancount.reports.convert_reports: conversion of a ledger to the
    Ledger and HLedger text formats.

    A shallow embedding of [convert_reports.py] and the properties of its
    currency quoter, posting classifier and directive printers. *)

From Stdlib Require Import Ascii String Bool Arith Lia DecimalString.
From stdpp Require Import gmap strings list sorting.
From Equations Require Import Equations.

(** ** Python strings

    A Python [str] is a sequence of code points.  The embedding uses Rocq's
    [string], so a character is a code point below 256; the character classes
    below are Python's on that range. *)
Module pystr.

Definition code (c : ascii) : nat := nat_of_ascii c.

Definition between (lo hi : nat) (c : ascii) : bool :=
  Nat.leb lo (code c) && Nat.leb (code c) hi.

(** [str.isspace], the characters removed by [str.rstrip()]. *)
Definition isspace (c : ascii) : bool :=
  between 9 13 c || between 28 32 c
  || Nat.eqb (code c) 133 || Nat.eqb (code c) 160.

Fixpoint spaces (n : nat) : string :=
  match n with
  | O => ""
  | S n' => String " " (spaces n')
  end.

(** ['{:w}'.format(s)] on a [str]: padded on the right, never cut. *)
Definition ljust (w : nat) (s : string) : string :=
  s +:+ spaces (w - String.length s).

(** ['{:>w}'.format(s)]. *)
Definition rjust (w : nat) (s : string) : string :=
  spaces (w - String.length s) +:+ s.

Definition is_empty (s : string) : bool :=
  match s with
  | EmptyString => true
  | String _ _ => false
  end.

(** [s.rstrip()]. *)
Fixpoint rstrip (s : string) : string :=
  match s with
  | EmptyString => ""
  | String c s' =>
      let r := rstrip s' in
      if isspace c && is_empty r then "" else String c r
  end.

(** [s.rstrip(ch)] for a single character [ch]. *)
Fixpoint rstrip_char (ch : ascii) (s : string) : string :=
  match s with
  | EmptyString => ""
  | String c s' =>
      let r := rstrip_char ch s' in
      if Ascii.eqb c ch && is_empty r then "" else String c r
  end.

(** [s.lstrip(ch)] for a single character [ch]. *)
Fixpoint lstrip_char (ch : ascii) (s : string) : string :=
  match s with
  | EmptyString => ""
  | String c s' => if Ascii.eqb c ch then lstrip_char ch s' else s
  end.

(** [sep.join(l)]. *)
Fixpoint join (sep : string) (l : list string) : string :=
  match l with
  | [] => ""
  | [x] => x
  | x :: l' => x +:+ sep +:+ join sep l'
  end.

Definition head (s : string) : option ascii :=
  match s with
  | EmptyString => None
  | String c _ => Some c
  end.

Fixpoint last (d : option ascii) (s : string) : option ascii :=
  match s with
  | EmptyString => d
  | String c s' => last (Some c) s'
  end.

(** Truth value of a [str] that may be [None]. *)
Definition truthy (o : option string) : bool :=
  match o with
  | Some s => negb (is_empty s)
  | None => false
  end.

(** [sorted(l)] on strings: by code points. *)
Definition sorted (l : list string) : list string := merge_sort String.le l.

(** [all(f(c) for c in s)]. *)
Fixpoint all (f : ascii -> bool) (s : string) : bool :=
  match s with
  | EmptyString => true
  | String c s' => f c && all f s'
  end.

End pystr.

(** ** The regular expressions of the module *)
Module re.
Import pystr.

Definition is_upper (c : ascii) : bool := between 65 90 c.
Definition is_digit (c : ascii) : bool := between 48 57 c.

(** [[A-Z0-9'._-]] (the escapes of the source's class are the plain
    characters). *)
Definition is_class (c : ascii) : bool :=
  is_upper c || is_digit c
  || Ascii.eqb c "'" || Ascii.eqb c "." || Ascii.eqb c "_" || Ascii.eqb c "-".

(** [[A-Z0-9]]. *)
Definition is_last (c : ascii) : bool := is_upper c || is_digit c.

(** [[0-9.]]. *)
Definition is_digit_or_period (c : ascii) : bool :=
  is_digit c || Ascii.eqb c ".".

(** [\w] of a [str] pattern: alphanumeric (as [str.isalnum]) or the
    underscore. *)
Definition is_word (c : ascii) : bool :=
  is_digit c || is_upper c || between 97 122 c || Nat.eqb (code c) 95
  || Nat.eqb (code c) 170 || between 178 179 c || Nat.eqb (code c) 181
  || between 185 186 c || between 188 190 c
  || between 192 214 c || between 216 246 c || between 248 255 c.

Definition word (o : option ascii) : bool :=
  match o with
  | Some c => is_word c
  | None => false
  end.

(** [\b] between the character before the position and the one at it;
    [None] is an end of the string. *)
Definition word_boundary (before after : option ascii) : bool :=
  xorb (word before) (word after).

(** [[A-Z0-9'._-]{0,n}[A-Z0-9]\b] matched at the head of [s], by greedy
    backtracking: the repetition takes a character whenever it can and the
    character is given back as the final [[A-Z0-9]] when the rest fails.
    Returns the matched text and what follows it. *)
Fixpoint match_tail (n : nat) (s : string) {struct s}
  : option (string * string) :=
  match s with
  | EmptyString => None
  | String c s' =>
      let as_last :=
        if is_last c && word_boundary (Some c) (head s')
        then Some (String c "", s') else None in
      match n with
      | O => as_last
      | S n' =>
          if is_class c then
            match match_tail n' s' with
            | Some (tok, rest) => Some (String c tok, rest)
            | None => as_last
            end
          else as_last
      end
  end.

(** [\b([A-Z][A-Z0-9'._-]{0,10}[A-Z0-9])\b] matched at the head of [s],
    [before] being the character that precedes it in the subject. *)
Definition match_at (before : option ascii) (s : string)
  : option (string * string) :=
  match s with
  | EmptyString => None
  | String c s' =>
      if word_boundary before (Some c) && is_upper c then
        match match_tail 10 s' with
        | Some (tok, rest) => Some (String c tok, rest)
        | None => None
        end
      else None
  end.

(** [re.search(r'[0-9\.]', s)] as a truth value. *)
Fixpoint search_digit_or_period (s : string) : bool :=
  match s with
  | EmptyString => false
  | String c s' => is_digit_or_period c || search_digit_or_period s'
  end.

End re.

(** The double quote character. *)
Definition dquote : ascii := ascii_of_nat 34.

(** [quote(match)], on the text of group 1:
    ['"{}"'.format(currency) if re.search(r'[0-9\.]', currency) else currency]. *)
Definition quote (currency : string) : string :=
  if re.search_digit_or_period currency
  then String dquote (currency +:+ String dquote "")
  else currency.

(** A value together with the equation that names it, for [with] clauses
    whose recursive calls need the equation. *)
Definition inspect {A : Type} (a : A) : {b : A | a = b} := exist _ a eq_refl.

(** The loop of [re.sub(pattern, quote, string)]: at each position the
    pattern is tried; a match is replaced and the scan resumes after it,
    otherwise the character is copied.  [before] is the character that
    precedes the position in the subject. *)
Equations? sub (before : option ascii) (s : string) : string
  by wf (String.length s) lt :=
  sub before EmptyString := EmptyString;
  sub before (String c s') with inspect (re.match_at before (String c s')) => {
    | exist _ (Some (tok, rest)) _ :=
        quote tok +:+ sub (pystr.last before tok) rest;
    | exist _ None _ := String c (sub (Some c) s') }.
Proof.
  - assert (Htail : forall n u t r,
               re.match_tail n u = Some (t, r) ->
               String.length r < String.length u).
    { clear. intros n u. revert n.
      induction u as [|a u IH]; intros n t r; simpl; [discriminate|].
      assert (Hlast : (if re.is_last a && re.word_boundary (Some a) (pystr.head u)
                       then Some (String a EmptyString, u) else None) = Some (t, r) ->
                      String.length r < S (String.length u)).
      { destruct (_ && _); [|discriminate]. intros [= _ <-]. lia. }
      destruct n as [|n]; [exact Hlast|].
      destruct (re.is_class a); [|exact Hlast].
      destruct (re.match_tail n u) as [[t' r']|] eqn:E; [|exact Hlast].
      intros [= _ <-]. apply IH in E. lia. }
    simpl in e.
    destruct (_ && _); [|discriminate].
    destruct (re.match_tail 10 s') as [[t' r']|] eqn:E; [|discriminate].
    injection e as _ <-. apply Htail in E. simpl. lia.
Qed.

Definition quote_currency (text : string) : string := sub None text.

(** ** The token pattern, as the specification words it *)

(** One uppercase letter, then 0 to 10 characters of the class, then one
    uppercase letter or digit. *)
Definition is_token (t : string) : Prop :=
  exists a mid z,
    t = String a (mid +:+ String z "") /\
    re.is_upper a = true /\
    String.length mid <= 10 /\
    pystr.all re.is_class mid = true /\
    re.is_last z = true.

(** [t], followed by [rest] and preceded by [before], is delimited by word
    boundaries. *)
Definition delimited (before : option ascii) (t rest : string) : Prop :=
  re.word_boundary before (pystr.head t) = true /\
  re.word_boundary (pystr.last None t) (pystr.head rest) = true.

Definition token_at (before : option ascii) (t rest : string) : Prop :=
  is_token t /\ delimited before t rest.

(** At most [n] characters of the class and a final [[A-Z0-9]] at a word
    boundary. *)
Definition is_tail (n : nat) (t rest : string) : Prop :=
  exists mid z,
    t = mid +:+ String z "" /\
    String.length mid <= n /\
    pystr.all re.is_class mid = true /\
    re.is_last z = true /\
    re.word_boundary (Some z) (pystr.head rest) = true.

Definition has_digit_or_period (t : string) : Prop :=
  exists c, In c (list_ascii_of_string t)
            /\ (re.is_digit c = true \/ c = "."%char).

(** No token at the same place is longer. *)
Definition longest (before : option ascii) (t rest : string) : Prop :=
  forall t' rest',
    t' +:+ rest' = t +:+ rest -> token_at before t' rest' ->
    String.length t' <= String.length t.

(** [quoted before s out]: [out] is [s] with, from left to right, every
    delimited token wrapped in double quotes when it has a digit or a period
    and left bare when it has none, and every other character kept. *)
Inductive quoted : option ascii -> string -> string -> Prop :=
| quoted_end before : quoted before "" ""
| quoted_wrapped before t rest out :
    token_at before t rest -> longest before t rest ->
    has_digit_or_period t ->
    quoted (pystr.last None t) rest out ->
    quoted before (t +:+ rest) (String dquote (t +:+ String dquote out))
| quoted_bare before t rest out :
    token_at before t rest -> longest before t rest ->
    ~ has_digit_or_period t ->
    quoted (pystr.last None t) rest out ->
    quoted before (t +:+ rest) (t +:+ out)
| quoted_other before c s out :
    (forall t rest, String c s = t +:+ rest -> ~ token_at before t rest) ->
    quoted (Some c) s out ->
    quoted before (String c s) (String c out).

(** ** The data model ([beancount.core]) *)

(** [decimal.Decimal], a finite value as [as_tuple()] gives it. *)
Record Decimal := mkDecimal {
  dec_sign : bool;
  dec_digits : N;
  dec_exponent : Z }.

Record date := mkDate { year : nat; month : nat; day : nat }.

Module amount.
Record Amount := mkAmount { number : Decimal; currency : string }.

(** Modelled from the spec: the class [Amount] is declared in
    [beancount.core.amount], which is not part of the sources; the spec
    reads the truth tests [if lot.cost] and [elif posting.price] as tests
    for a non-null cost and a non-null price. *)
Definition truth (a : option Amount) : bool :=
  match a with
  | Some _ => true
  | None => false
  end.
End amount.

Module position.
(** [Lot(currency, cost, lot_date)]. *)
Record Lot := mkLot {
  lot_currency : string;
  cost : option amount.Amount;
  lot_date : option date }.

(** [Position(lot, number)]. *)
Record Position := mkPosition { lot : Lot; number : Decimal }.
End position.

Module data.
(** A [Transaction] object is referred to by its identity. *)
Definition ref := nat.

(** [Posting(entry, account, position, price, flag)]; [entry] is the
    reference to the owning transaction.  [account] is a [str]
    (the printers assert so). *)
Record Posting := mkPosting {
  posting_entry : option ref;
  posting_account : string;
  posting_position : option position.Position;
  posting_price : option amount.Amount;
  posting_flag : option string }.

Record Transaction := mkTransaction {
  txn_date : date;
  txn_flag : option string;
  txn_payee : option string;
  txn_narration : string;
  txn_tags : option (gset string);
  txn_links : option (gset string);
  txn_postings : list Posting }.

Record Balance := mkBalance {
  balance_date : date;
  balance_account : string;
  balance_amount : amount.Amount }.

Record Note := mkNote {
  note_date : date; note_account : string; note_comment : string }.

Record Document := mkDocument {
  document_date : date; document_account : string;
  document_filename : string }.

Record Pad := mkPad {
  pad_date : date; pad_account : string; pad_source_account : string }.

Record Open := mkOpen {
  open_date : date; open_account : string;
  open_currencies : option (list string) }.

Record Close := mkClose { close_date : date; close_account : string }.

Record Price := mkPrice {
  price_date : date; price_currency : string;
  price_amount : amount.Amount }.

Record Event := mkEvent {
  event_date : date; event_type : string; event_description : string }.

(** The directives, by class name. *)
Inductive Directive :=
| DTransaction (entry : Transaction)
| DBalance (entry : Balance)
| DNote (entry : Note)
| DDocument (entry : Document)
| DPad (entry : Pad)
| DOpen (entry : Open)
| DClose (entry : Close)
| DPrice (entry : Price)
| DEvent (entry : Event).
End data.

(** The transaction objects that postings refer to.  The objects are
    immutable, so one store serves a whole run. *)
Abbreviation heap := (gmap data.ref data.Transaction).

(** ** What the module imports and does not define *)
Class Collaborators := {
  (** [amount.MAXDIGITS_PRINTER] *)
  MAXDIGITS_PRINTER : nat;
  (** [Amount.str(max_digits)] *)
  Amount_str : amount.Amount -> nat -> string;
  (** [str(amount)] *)
  Amount_to_string : amount.Amount -> string;
  (** [Position.strs()]: the amount and the cost in braces, or [''] *)
  Position_strs : position.Position -> string * string;
  (** [-position] *)
  Position_neg : position.Position -> position.Position;
  (** ['{:%Y/%m/%d}'.format(date)] *)
  date_format : date -> string;
  (** [interpolate.fill_residual_posting(entry, account)] *)
  fill_residual_posting : data.Transaction -> string -> data.Transaction;
  (** [interpolate.get_posting_weight(posting)] *)
  get_posting_weight : data.Posting -> amount.Amount;
  (** [data.entry_replace(entry, postings=..., narration=...)]; [None] for
      a keyword that is not given *)
  entry_replace :
    data.Transaction -> list data.Posting -> option string -> data.Transaction }.

Definition ROUNDING_ACCOUNT : string := "Equity:Rounding".

(** ** Exceptions, calls and writes *)

(** [AttributeError] is what an attribute of [None] raises.  The
    assertions of the source ([posting.account is not None],
    [isinstance(entry, data.Transaction)]) hold by the types of the
    embedding and never raise [AssertionError] here. *)
Inductive exn := AttributeError | AssertionError.

(** What a run does that can be observed from outside: the calls to the
    residual balancer and to the classifier, and the writes to [oss]. *)
Inductive event :=
| CallFillResidual (entry : data.Transaction) (account : string)
| CallPostingsByType (entry : option data.ref)
| Write (text : string).

(** A computation logs its events and ends with a value or an exception. *)
Record run (A : Type) := Run { events : list event; outcome : exn + A }.
Arguments Run {A} _ _.
Arguments events {A} _.
Arguments outcome {A} _.

#[export] Instance run_ret : MRet run := fun A a => Run [] (inr a).

#[export] Instance run_bind : MBind run := fun A B k m =>
  match outcome m with
  | inl e => Run (events m) (inl e)
  | inr a => Run (events m ++ events (k a)) (outcome (k a))
  end.

Definition raise {A : Type} (e : exn) : run A := Run [] (inl e).
Definition emit (ev : event) : run unit := Run [ev] (inr tt).
Definition lift {A : Type} (r : exn + A) : run A := Run [] r.

(** [for x in l: body(x)]. *)
Fixpoint for_each {A : Type} (l : list A) (body : A -> run unit) : run unit :=
  match l with
  | [] => mret tt
  | x :: l' => body x ;; for_each l' body
  end.

(** The calls to the residual balancer among the events. *)
Definition is_fill (ev : event) : Prop :=
  match ev with
  | CallFillResidual _ _ => True
  | _ => False
  end.

(** [oss.write(text)]. *)
Definition write (text : string) : run unit := emit (Write text).

(** [oss.getvalue()] after the given events. *)
Fixpoint getvalue (evs : list event) : string :=
  match evs with
  | [] => ""
  | Write text :: evs' => text +:+ getvalue evs'
  | _ :: evs' => getvalue evs'
  end.

(** What a caller gets from a method run on a fresh [oss]: the text
    written, or the exception. *)
Definition written {A : Type} (r : run A) : exn + string :=
  match outcome r with
  | inl e => inl e
  | inr _ => inr (getvalue (events r))
  end.

(** The line feed. *)
Definition LF : string := String (ascii_of_nat 10) "".

(** ** The posting classifier *)

(** One turn of the loop of [postings_by_type]: the accumulators are
    (simple, at price, at cost). *)
Definition postings_by_type_step
    (acc : list data.Posting * list data.Posting * list data.Posting)
    (posting : data.Posting)
  : exn + (list data.Posting * list data.Posting * list data.Posting) :=
  let '(postings_simple, postings_at_price, postings_at_cost) := acc in
  match data.posting_position posting with
  | None => inl AttributeError
  | Some pos =>
      if amount.truth (position.cost (position.lot pos)) then
        inr (postings_simple, postings_at_price, postings_at_cost ++ [posting])
      else if amount.truth (data.posting_price posting) then
        inr (postings_simple, postings_at_price ++ [posting], postings_at_cost)
      else
        inr (postings_simple ++ [posting], postings_at_price, postings_at_cost)
  end.

Fixpoint postings_by_type_loop
    (acc : list data.Posting * list data.Posting * list data.Posting)
    (postings : list data.Posting)
  : exn + (list data.Posting * list data.Posting * list data.Posting) :=
  match postings with
  | [] => inr acc
  | posting :: postings' =>
      match postings_by_type_step acc posting with
      | inl e => inl e
      | inr acc' => postings_by_type_loop acc' postings'
      end
  end.

(** Returns (simple, at price, at cost). *)
Definition postings_by_type (entry : data.Transaction)
  : exn + (list data.Posting * list data.Posting * list data.Posting) :=
  postings_by_type_loop ([], [], []) (data.txn_postings entry).

(** The rule of the classifier, in the words of the specification: a
    non-null cost on the lot of the position makes a posting at cost; else a
    non-null price makes it at price; else it is simple. *)
Inductive bucket := simple | at_price | at_cost.

#[export] Instance bucket_eq_dec : EqDecision bucket.
Proof. solve_decision. Defined.

Definition lot_cost (posting : data.Posting) : option amount.Amount :=
  data.posting_position posting ≫= (λ pos, position.cost (position.lot pos)).

Definition classify (posting : data.Posting) : bucket :=
  match lot_cost posting, data.posting_price posting with
  | Some _, _ => at_cost
  | None, Some _ => at_price
  | None, None => simple
  end.

(** The postings of a bucket, in their order in the transaction. *)
Definition bucket_of (b : bucket) (postings : list data.Posting)
  : list data.Posting :=
  filter (λ posting, classify posting = b) postings.

Definition has_position (posting : data.Posting) : Prop :=
  is_Some (data.posting_position posting).

(** ** Splitting of currency conversions *)

(** What the first component of the result of [split_currency_conversions]
    can be: the docstring announces a boolean, the code yields the value of
    [postings_at_cost and postings_at_price]. *)
Inductive value :=
| VBool (b : bool)
| VList (l : list data.Posting).

(** [a and b] on two lists: [a] when it is empty, else [b]. *)
Definition list_and {A : Type} (a b : list A) : list A :=
  match a with
  | [] => a
  | _ :: _ => b
  end.

Definition list_truth {A : Type} (l : list A) : bool :=
  match l with
  | [] => false
  | _ :: _ => true
  end.

Definition value_truth (v : value) : bool :=
  match v with
  | VBool b => b
  | VList l => list_truth l
  end.

Section Split.
Context `{Collaborators}.

(** The variables of the body of the loop over the postings at price. *)
Definition simple_position (posting_orig : data.Posting)
  : position.Position :=
  let weight := get_posting_weight posting_orig in
  position.mkPosition
    (position.mkLot (amount.currency weight) None None)
    (amount.number weight).

Definition posting_pos (posting_orig : data.Posting) : data.Posting :=
  data.mkPosting None (data.posting_account posting_orig)
    (Some (simple_position posting_orig)) None None.

Definition posting_neg (posting_orig : data.Posting) : data.Posting :=
  data.mkPosting None (data.posting_account posting_orig)
    (Some (Position_neg (simple_position posting_orig))) None None.

Definition currency_entry (entry : data.Transaction)
    (posting_orig : data.Posting) : data.Transaction :=
  entry_replace entry [posting_orig; posting_neg posting_orig]
    (Some (data.txn_narration entry +:+ " (Currency conversion)")).

(** One turn of the loop; the state is
    (new_entries, replacement_postings). *)
Definition split_step (entry : data.Transaction)
    (st : list data.Transaction * list data.Posting)
    (posting_orig : data.Posting)
  : list data.Transaction * list data.Posting :=
  let '(new_entries, replacement_postings) := st in
  (new_entries ++ [currency_entry entry posting_orig],
   replacement_postings ++ [posting_pos posting_orig]).

Definition split_currency_conversions (entry : data.Transaction)
  : exn + (value * list data.Transaction) :=
  match postings_by_type entry with
  | inl e => inl e
  | inr (postings_simple, postings_at_price, postings_at_cost) =>
      let converted := list_and postings_at_cost postings_at_price in
      if list_truth converted then
        let '(new_entries, replacement_postings) :=
          fold_left (split_step entry) postings_at_price ([], []) in
        let converted_entry :=
          entry_replace entry
            (postings_at_cost ++ postings_simple ++ replacement_postings)
            None in
        inr (VList converted, new_entries ++ [converted_entry])
      else
        inr (VList converted, [entry])
  end.
End Split.

(** ** The lists of the program as objects *)

(** The lists that [postings_by_type] and [split_currency_conversions]
    read and build are objects: a name ([accumlator], [converted]) can stand
    for a list that another name also stands for, and [append] changes the
    object for all its names.  The store holds these objects.  The named
    tuples ([Transaction], [Posting], [Position]) have no field that can be
    assigned; a transaction holds the list object of its postings.  Its
    tags and links are not read by these functions and are kept as
    values. *)
Module mem.

Abbreviation loc := positive.

Record Transaction := mkTransaction {
  txn_date : date;
  txn_flag : option string;
  txn_payee : option string;
  txn_narration : string;
  txn_tags : option (gset string);
  txn_links : option (gset string);
  txn_postings : loc }.

Inductive object :=
| Postings (l : list data.Posting)
| Entries (l : list Transaction).

Abbreviation store := (gmap loc object).

(** The transaction as a value, for the postings that its list holds. *)
Definition value (entry : Transaction) (postings : list data.Posting)
  : data.Transaction :=
  data.mkTransaction (txn_date entry) (txn_flag entry) (txn_payee entry)
    (txn_narration entry) (txn_tags entry) (txn_links entry) postings.

(** The transaction with the fields of a value and a list object. *)
Definition object_of (entry : data.Transaction) (postings : loc)
  : Transaction :=
  mkTransaction (data.txn_date entry) (data.txn_flag entry)
    (data.txn_payee entry) (data.txn_narration entry) (data.txn_tags entry)
    (data.txn_links entry) postings.

Definition load (s : store) (entry : Transaction) : option data.Transaction :=
  match s !! txn_postings entry with
  | Some (Postings postings) => Some (value entry postings)
  | _ => None
  end.

(** A computation on the store ends with a value or an exception, in a new
    store; [None] is a loop that was not given turns enough. *)
Definition st (A : Type) : Type := store -> option ((exn + A) * store).

Definition ret {A : Type} (a : A) : st A := fun s => Some (inr a, s).

Definition bind {A B : Type} (m : st A) (k : A -> st B) : st B := fun s =>
  match m s with
  | Some (inr a, s') => k a s'
  | Some (inl e, s') => Some (inl e, s')
  | None => None
  end.

Definition raise {A : Type} (e : exn) : st A := fun s => Some (inl e, s).

(** A new list object. *)
Definition new (o : object) : st loc := fun s =>
  let l := fresh (dom s) in Some (inr l, <[ l := o ]> s).

(** The postings that a list holds; a name of the program always stands for
    a list of the right kind, the other case is given an exception. *)
Definition postings_of (l : loc) : st (list data.Posting) := fun s =>
  match s !! l with
  | Some (Postings postings) => Some (inr postings, s)
  | _ => Some (inl AttributeError, s)
  end.

(** [l.append(posting)]. *)
Definition append_posting (l : loc) (posting : data.Posting) : st unit :=
  fun s =>
  match s !! l with
  | Some (Postings postings) =>
      Some (inr tt, <[ l := Postings (postings ++ [posting]) ]> s)
  | _ => Some (inl AttributeError, s)
  end.

(** [l.append(entry)]. *)
Definition append_entry (l : loc) (entry : Transaction) : st unit :=
  fun s =>
  match s !! l with
  | Some (Entries entries) =>
      Some (inr tt, <[ l := Entries (entries ++ [entry]) ]> s)
  | _ => Some (inl AttributeError, s)
  end.

(** [for posting in l: body(posting)], from the index [i] on: the iterator
    looks the list up again at each turn. *)
Fixpoint for_in (turns : nat) (l : loc) (i : nat)
    (body : data.Posting -> st unit) : st unit := fun s =>
  match s !! l with
  | Some (Postings postings) =>
      match postings !! i with
      | None => Some (inr tt, s)
      | Some posting =>
          match turns with
          | O => None
          | S turns' =>
              bind (body posting) (fun _ => for_in turns' l (S i) body) s
          end
      end
  | _ => Some (inl AttributeError, s)
  end.

Section Functions.
Context `{Collaborators}.

(** [data.entry_replace(entry, postings=l, narration=...)].  The
    collaborator is known as a function on values; as to objects it is
    taken to read the transaction, to return a transaction that holds the
    list [l] it is given, whose postings it may have replaced, and to change
    no other object. *)
Definition entry_replace_in (entry : Transaction) (l : loc)
    (narration : option string) : st Transaction :=
  bind (postings_of (txn_postings entry)) (fun old =>
  bind (postings_of l) (fun postings =>
  let replaced := entry_replace (value entry old) postings narration in
  fun s =>
    Some (inr (object_of replaced l),
          <[ l := Postings (data.txn_postings replaced) ]> s))).

(** Returns (simple, at price, at cost), three new lists. *)
Definition postings_by_type (turns : nat) (entry : Transaction)
  : st (loc * loc * loc) :=
  bind (new (Postings [])) (fun postings_at_cost =>
  bind (new (Postings [])) (fun postings_at_price =>
  bind (new (Postings [])) (fun postings_simple =>
  bind (for_in turns (txn_postings entry) 0 (fun posting =>
          match data.posting_position posting with
          | None => raise AttributeError
          | Some pos =>
              let accumlator :=
                if amount.truth (position.cost (position.lot pos))
                then postings_at_cost
                else if amount.truth (data.posting_price posting)
                     then postings_at_price
                     else postings_simple in
              append_posting accumlator posting
          end)) (fun _ =>
  ret (postings_simple, postings_at_price, postings_at_cost))))).

(** Returns (converted, new_entries): [converted] is one of the lists of
    the classifier, [new_entries] a new list. *)
Definition split_currency_conversions (turns : nat) (entry : Transaction)
  : st (loc * loc) :=
  bind (postings_by_type turns entry)
    (fun '(postings_simple, postings_at_price, postings_at_cost) =>
  bind (postings_of postings_at_cost) (fun at_cost =>
  let converted :=
    if list_truth at_cost then postings_at_price else postings_at_cost in
  bind (postings_of converted) (fun conversions =>
  if list_truth conversions then
    bind (new (Entries [])) (fun new_entries =>
    bind (new (Postings [])) (fun replacement_postings =>
    bind (for_in turns postings_at_price 0 (fun posting_orig =>
            bind (new (Postings [posting_orig; posting_neg posting_orig]))
              (fun postings =>
            bind (entry_replace_in entry postings
                    (Some (txn_narration entry +:+ " (Currency conversion)")))
              (fun currency_entry =>
            bind (append_entry new_entries currency_entry) (fun _ =>
            append_posting replacement_postings (posting_pos posting_orig))))))
      (fun _ =>
    bind (postings_of postings_at_cost) (fun l1 =>
    bind (postings_of postings_simple) (fun l2 =>
    bind (postings_of replacement_postings) (fun l3 =>
    bind (new (Postings (l1 ++ l2 ++ l3))) (fun postings =>
    bind (entry_replace_in entry postings None) (fun converted_entry =>
    bind (append_entry new_entries converted_entry) (fun _ =>
    ret (converted, new_entries))))))))))
  else
    bind (new (Entries [entry])) (fun new_entries =>
    ret (converted, new_entries))))).
End Functions.
End mem.

(** ** The printers *)

(** The methods that [HLedgerPrinter] overrides; the others are looked up in
    [LedgerPrinter] for both classes. *)
Record PrinterClass := {
  cls_Posting : heap -> data.Posting -> run unit;
  cls_Open : data.Open -> run unit }.

(** [postings_by_type(posting.entry)] as the printer calls it: the reference
    is followed in the store; [None] has no attribute [postings].  (A
    reference to an object that the store does not hold cannot exist in
    Python; it is given the same outcome.) *)
Definition call_postings_by_type (h : heap) (entry : option data.ref)
  : run (list data.Posting * list data.Posting * list data.Posting) :=
  emit (CallPostingsByType entry) ;;
  match entry ≫= (h !!.) with
  | None => raise AttributeError
  | Some e => lift (postings_by_type e)
  end.

Module LedgerPrinter.
Section Methods.
Context `{Collaborators}.

Definition call_fill_residual_posting
    (entry : data.Transaction) (account : string) : run data.Transaction :=
  emit (CallFillResidual entry account) ;;
  mret (fill_residual_posting entry account).

(** ['{:}{:62}'.format(flag, posting.account)], with [flag] the flag and
    a space when the posting has a flag. *)
Definition flag_posting (posting : data.Posting) : string :=
  let flag :=
    if pystr.truthy (data.posting_flag posting)
    then default "" (data.posting_flag posting) +:+ " " else "" in
  flag +:+ pystr.ljust 62 (data.posting_account posting).

(** [posting.position.strs()], or two empty strings without a position
    (a [Position] object is true as a condition). *)
Definition strs (posting : data.Posting) : string * string :=
  match data.posting_position posting with
  | Some pos => Position_strs pos
  | None => ("", "")
  end.

(** ['  {:64} {:>16} {:>16} {:>16}'.format(...)]. *)
Definition posting_format (flag_posting amount cost price : string) : string :=
  "  " +:+ pystr.ljust 64 flag_posting
  +:+ " " +:+ pystr.rjust 16 amount
  +:+ " " +:+ pystr.rjust 16 cost
  +:+ " " +:+ pystr.rjust 16 price.

Definition Posting (h : heap) (posting : data.Posting) : run unit :=
  let flag_posting := flag_posting posting in
  let '(amount_str, cost_str) := strs posting in
  price_str ←
    match data.posting_price posting with
    | Some price => mret ("@ " +:+ Amount_str price MAXDIGITS_PRINTER)
    | None =>
        '(postings_simple, postings_at_price, postings_at_cost) ←
          call_postings_by_type h (data.posting_entry posting) ;
        if list_truth postings_at_price && list_truth postings_at_cost then
          match data.posting_position posting with
          | None => raise AttributeError
          | Some pos =>
              match position.cost (position.lot pos) with
              | Some cost => mret ("@ " +:+ Amount_str cost MAXDIGITS_PRINTER)
              | None => mret ""
              end
          end
        else mret ""
    end ;
  let posting_str :=
    posting_format flag_posting (quote_currency amount_str)
      (quote_currency cost_str) (quote_currency price_str) in
  write (pystr.rstrip posting_str) ;;
  write LF.

Definition tag_strings (tags : option (gset string)) : list string :=
  match tags with
  | Some tags =>
      if decide (tags = ∅) then []
      else (λ tag, ";; Tag: #" +:+ tag) <$> pystr.sorted (elements tags)
  | None => []
  end.

Definition link_strings (links : option (gset string)) : list string :=
  match links with
  | Some links =>
      if decide (links = ∅) then []
      else (λ link, ";; Link: ^" +:+ link) <$> pystr.sorted (elements links)
  | None => []
  end.

Definition Transaction (cls : PrinterClass) (h : heap)
    (entry : data.Transaction) : run unit :=
  let strings := [] in
  entry ← call_fill_residual_posting entry ROUNDING_ACCOUNT ;
  let strings := strings ++ tag_strings (data.txn_tags entry) in
  let strings := strings ++ link_strings (data.txn_links entry) in
  let strings :=
    if pystr.truthy (data.txn_payee entry)
    then strings ++ [default "" (data.txn_payee entry) +:+ " |"]
    else strings in
  let strings :=
    if pystr.truthy (Some (data.txn_narration entry))
    then strings ++ [data.txn_narration entry]
    else strings in
  write (date_format (data.txn_date entry)
         +:+ " " +:+ (if pystr.truthy (data.txn_flag entry)
                      then default "" (data.txn_flag entry) else "")
         +:+ " " +:+ pystr.join " " strings +:+ LF) ;;
  for_each (data.txn_postings entry) (cls_Posting cls h).

Definition Balance (entry : data.Balance) : run unit := mret tt.

Definition Note (entry : data.Note) : run unit :=
  write (";; Note: " +:+ date_format (data.note_date entry)
         +:+ " " +:+ data.note_account entry
         +:+ " " +:+ data.note_comment entry +:+ LF).

Definition Document (entry : data.Document) : run unit :=
  write (";; Document: " +:+ date_format (data.document_date entry)
         +:+ " " +:+ data.document_account entry
         +:+ " " +:+ data.document_filename entry +:+ LF).

Definition Pad (entry : data.Pad) : run unit :=
  write (";; Pad: " +:+ date_format (data.pad_date entry)
         +:+ " " +:+ data.pad_account entry
         +:+ " " +:+ data.pad_source_account entry +:+ LF).

Definition commodity_clause (currency : string) : string :=
  "commodity == " +:+ String dquote (currency +:+ String dquote "").

Definition Open (entry : data.Open) : run unit :=
  write ("account " +:+ pystr.ljust 47 (data.open_account entry) +:+ LF) ;;
  if list_truth (default [] (data.open_currencies entry)) then
    write ("  assert "
           +:+ pystr.join " | "
                 (commodity_clause <$> default [] (data.open_currencies entry))
           +:+ LF)
  else mret tt.

Definition Close (entry : data.Close) : run unit :=
  write (";; Close: " +:+ date_format (data.close_date entry)
         +:+ " close " +:+ data.close_account entry +:+ LF).

Definition Price (entry : data.Price) : run unit :=
  let price_directive :=
    "P " +:+ date_format (data.price_date entry) +:+ " 00:00:00 "
    +:+ pystr.ljust 16 (data.price_currency entry)
    +:+ " " +:+ pystr.rjust 16 (Amount_to_string (data.price_amount entry))
    +:+ LF in
  write (quote_currency price_directive).

Definition Event (entry : data.Event) : run unit :=
  write (";; Event: " +:+ date_format (data.event_date entry)
         +:+ " " +:+ String dquote (data.event_type entry +:+ String dquote "")
         +:+ " " +:+ String dquote (data.event_description entry
                                    +:+ String dquote "")
         +:+ LF).

(** [getattr(cls, obj.__class__.__name__)(cls, obj, oss)]. *)
Definition method (cls : PrinterClass) (h : heap) (obj : data.Directive)
  : run unit :=
  match obj with
  | data.DTransaction entry => Transaction cls h entry
  | data.DBalance entry => Balance entry
  | data.DNote entry => Note entry
  | data.DDocument entry => Document entry
  | data.DPad entry => Pad entry
  | data.DOpen entry => cls_Open cls entry
  | data.DClose entry => Close entry
  | data.DPrice entry => Price entry
  | data.DEvent entry => Event entry
  end.

(** [__call__(cls, obj)]: a fresh [oss], the method, [oss.getvalue()]. *)
Definition call (cls : PrinterClass) (h : heap) (obj : data.Directive)
  : run string :=
  let r := method cls h obj in
  Run (events r) (written r).

Definition cls : PrinterClass :=
  {| cls_Posting := Posting; cls_Open := Open |}.
End Methods.
End LedgerPrinter.

Module HLedgerPrinter.
Section Methods.
Context `{Collaborators}.

(** ['  {:64} {:>16} {:>16}'.format(...)]. *)
Definition posting_format (flag_posting amount cost : string) : string :=
  "  " +:+ pystr.ljust 64 flag_posting
  +:+ " " +:+ pystr.rjust 16 amount
  +:+ " " +:+ pystr.rjust 16 cost.

(** The amount and the cost of the position, the cost turned into a price
    entry: ['@ {}'.format(cost_str.lstrip('{').rstrip('}'))]. *)
Definition strs (posting : data.Posting) : string * string :=
  match data.posting_position posting with
  | Some pos =>
      let '(amount_str, cost_str) := Position_strs pos in
      if negb (pystr.is_empty cost_str) then
        (amount_str,
         "@ " +:+ pystr.rstrip_char "}" (pystr.lstrip_char "{" cost_str))
      else (amount_str, cost_str)
  | None => ("", "")
  end.

Definition Posting (h : heap) (posting : data.Posting) : run unit :=
  let flag_posting := LedgerPrinter.flag_posting posting in
  let '(amount_str, cost_str) := strs posting in
  let price_str :=
    match data.posting_price posting with
    | Some price => "@ " +:+ Amount_str price MAXDIGITS_PRINTER
    | None => ""
    end in
  let posting_str :=
    posting_format flag_posting (quote_currency amount_str)
      (quote_currency cost_str) in
  write (pystr.rstrip posting_str) ;;
  write LF.

Definition Open (entry : data.Open) : run unit :=
  write (";; Open: " +:+ date_format (data.open_date entry)
         +:+ " close " +:+ data.open_account entry +:+ LF).

Definition cls : PrinterClass :=
  {| cls_Posting := Posting; cls_Open := Open |}.

Definition call (h : heap) (obj : data.Directive) : run string :=
  LedgerPrinter.call cls h obj.
End Methods.
End HLedgerPrinter.

(** ** The reports *)

(** What a report leaves behind: the text written to [file], and the
    exception that ended the loop, if one did. *)
Record rendering := Rendering { file : string; raised : option exn }.

(** [for entry in entries: file.write(printer(entry)); file.write('\n')]. *)
Fixpoint render_with (printer : data.Directive -> run string)
    (entries : list data.Directive) : rendering :=
  match entries with
  | [] => Rendering "" None
  | entry :: entries' =>
      match outcome (printer entry) with
      | inl e => Rendering "" (Some e)
      | inr text =>
          let r := render_with printer entries' in
          Rendering (text +:+ LF +:+ file r) (raised r)
      end
  end.

Module LedgerReport.
Section Methods.
Context `{Collaborators}.

(** [render_ledger(self, entries, errors, options_map, file)]; [errors]
    and [options_map] are not used. *)
Definition render_ledger (h : heap) (entries : list data.Directive)
  : rendering :=
  let ledger_printer := LedgerPrinter.call LedgerPrinter.cls h in
  render_with ledger_printer entries.
End Methods.
End LedgerReport.

Module HLedgerReport.
Section Methods.
Context `{Collaborators}.

(** [render_hledger(self, entries, errors, options_map, file)]. *)
Definition render_hledger (h : heap) (entries : list data.Directive)
  : rendering :=
  let hledger_printer := HLedgerPrinter.call h in
  render_with hledger_printer entries.
End Methods.
End HLedgerReport.

(** ** Notions used to state properties of the code *)

(** The text without its double quotes. *)
Fixpoint without_dquote (s : string) : string :=
  match s with
  | EmptyString => ""
  | String c s' =>
      if Ascii.eqb c dquote then without_dquote s'
      else String c (without_dquote s')
  end.

(** The number of calls to the classifier among the events. *)
Fixpoint classifier_calls (evs : list event) : nat :=
  match evs with
  | [] => 0
  | CallPostingsByType _ :: evs' => S (classifier_calls evs')
  | _ :: evs' => classifier_calls evs'
  end.

(** The directives whose method [HLedgerPrinter] overrides, itself or
    through [Posting]. *)
Definition overridden (obj : data.Directive) : bool :=
  match obj with
  | data.DTransaction _ | data.DOpen _ => true
  | _ => false
  end.

(** A posting that the Ledger printer can render: it has a price, or it has
    a position and refers to a transaction of the store all of whose
    postings have one. *)
Definition renderable (h : heap) (posting : data.Posting) : Prop :=
  is_Some (data.posting_price posting)
  \/ (has_position posting
      /\ exists r entry,
           data.posting_entry posting = Some r /\ h !! r = Some entry
           /\ Forall has_position (data.txn_postings entry)).

(** A transaction whose postings are not both at cost and at price. *)
Definition unmixed (entry : data.Transaction) : Prop :=
  bucket_of at_cost (data.txn_postings entry) = []
  \/ bucket_of at_price (data.txn_postings entry) = [].

(** The objects of [s0] are the same in [s]. *)
Definition kept (s0 s : mem.store) : Prop :=
  forall l, l ∈ dom s0 -> s !! l = s0 !! l.

(** A computation that changes no object of [s0], and whose value, if it
    returns one, satisfies [Q]. *)
Definition keeps {A : Type} (s0 : mem.store) (m : mem.st A) (Q : A -> Prop)
  : Prop :=
  forall s out s',
    kept s0 s -> m s = Some (out, s') ->
    kept s0 s' /\ match out with
                  | inr a => Q a
                  | inl _ => True
                  end.

(** ** Stand-ins for the collaborators, and sample ledgers *)
Module demo.

Fixpoint zeros (n : nat) : string :=
  match n with
  | O => ""
  | S n' => String "0" (zeros n')
  end.

Definition nat_text (n : nat) : string :=
  NilZero.string_of_uint (Nat.to_uint n).

(** The digits, with the point [-exponent] places from the right. *)
Definition decimal_text (d : Decimal) : string :=
  let ds := NilZero.string_of_uint (N.to_uint (dec_digits d)) in
  let sign := if dec_sign d then "-" else "" in
  match dec_exponent d with
  | Z0 => sign +:+ ds
  | Zpos e => sign +:+ ds +:+ zeros (Pos.to_nat e)
  | Zneg e =>
      let k := Pos.to_nat e in
      let ds := zeros (S k - String.length ds) +:+ ds in
      let n := String.length ds - k in
      sign +:+ String.substring 0 n ds +:+ "." +:+ String.substring n k ds
  end.

Definition amount_text (a : amount.Amount) : string :=
  decimal_text (amount.number a) +:+ " " +:+ amount.currency a.

Definition strs (pos : position.Position) : string * string :=
  (decimal_text (position.number pos)
     +:+ " " +:+ position.lot_currency (position.lot pos),
   match position.cost (position.lot pos) with
   | Some c => "{" +:+ amount_text c +:+ "}"
   | None => ""
   end).

Definition negate (d : Decimal) : Decimal :=
  mkDecimal (negb (dec_sign d)) (dec_digits d) (dec_exponent d).

Definition times (a b : Decimal) : Decimal :=
  mkDecimal (xorb (dec_sign a) (dec_sign b))
    (dec_digits a * dec_digits b) (dec_exponent a + dec_exponent b).

Definition two_digits (n : nat) : string :=
  zeros (2 - String.length (nat_text n)) +:+ nat_text n.

Definition ymd (d : date) : string :=
  zeros (4 - String.length (nat_text (year d))) +:+ nat_text (year d)
  +:+ "/" +:+ two_digits (month d) +:+ "/" +:+ two_digits (day d).

(** The units times the price, or the units themselves. *)
Definition weight (posting : data.Posting) : amount.Amount :=
  match data.posting_position posting, data.posting_price posting with
  | Some pos, Some price =>
      amount.mkAmount (times (position.number pos) (amount.number price))
        (amount.currency price)
  | Some pos, None =>
      amount.mkAmount (position.number pos)
        (position.lot_currency (position.lot pos))
  | None, _ => amount.mkAmount (mkDecimal false 0 0) ""
  end.

Definition replace (entry : data.Transaction)
    (postings : list data.Posting) (narration : option string)
  : data.Transaction :=
  data.mkTransaction (data.txn_date entry) (data.txn_flag entry)
    (data.txn_payee entry)
    (default (data.txn_narration entry) narration)
    (data.txn_tags entry) (data.txn_links entry) postings.

(** A balancer for transactions that balance: nothing to absorb. *)
Definition collaborators : Collaborators := {|
  MAXDIGITS_PRINTER := 12;
  Amount_str a _ := amount_text a;
  Amount_to_string := amount_text;
  Position_strs := strs;
  Position_neg pos :=
    position.mkPosition (position.lot pos) (negate (position.number pos));
  date_format := ymd;
  fill_residual_posting entry _ := entry;
  get_posting_weight := weight;
  entry_replace := replace |}.

Definition usd (digits : N) (exponent : Z) : amount.Amount :=
  amount.mkAmount (mkDecimal false digits exponent) "USD".

(** [Assets:Investment  5 GOOG {520.0 USD}] of the transaction [owner]. *)
Definition goog (owner : data.ref) : data.Posting :=
  data.mkPosting (Some owner) "Assets:Investment"
    (Some (position.mkPosition
             (position.mkLot "GOOG" (Some (usd 5200 (-1))) None)
             (mkDecimal false 5 0)))
    None None.

(** [Expenses:Commissions  9.95 USD]. *)
Definition commission (owner : data.ref) : data.Posting :=
  data.mkPosting (Some owner) "Expenses:Commissions"
    (Some (position.mkPosition (position.mkLot "USD" None None)
             (mkDecimal false 995 (-2))))
    None None.

(** [Assets:Cash  -2939.46 CAD @ 0.8879 USD]. *)
Definition cash (owner : data.ref) : data.Posting :=
  data.mkPosting (Some owner) "Assets:Cash"
    (Some (position.mkPosition (position.mkLot "CAD" None None)
             (mkDecimal true 293946 (-2))))
    (Some (usd 8879 (-4))) None.

(** A posting without a position, as the printers provide for. *)
Definition bare (owner : data.ref) : data.Posting :=
  data.mkPosting (Some owner) "Equity:Opening" None None None.

Definition buy_stock : data.Transaction :=
  data.mkTransaction (mkDate 2014 11 2) (Some "*") None "Buy stock"
    None None [goog 1; commission 1; cash 1].

Definition hold : data.Transaction :=
  data.mkTransaction (mkDate 2014 11 5) (Some "*") None "Transfer in kind"
    None None [goog 5; commission 5].

Definition buy_stock_incomplete : data.Transaction :=
  data.mkTransaction (mkDate 2014 11 2) (Some "*") None "Buy stock"
    None None [goog 2; cash 2; bare 2].

Definition lunch : data.Transaction :=
  data.mkTransaction (mkDate 2014 11 3) (Some "*") (Some "Cafe") "Lunch"
    (Some {[ "trip" ]}) (Some {[ "receipt" ]}) [commission 3].

Definition fees : data.Transaction :=
  data.mkTransaction (mkDate 2014 11 4) None None "Fees"
    None None [commission 4].

Definition objects : heap :=
  {[ 1 := buy_stock; 2 := buy_stock_incomplete; 3 := lunch; 4 := fees;
     5 := hold ]}.

Definition open_account : data.Open :=
  data.mkOpen (mkDate 2014 1 1) "Assets:Cash" (Some ["USD"; "EUR"]).

Definition note : data.Note :=
  data.mkNote (mkDate 2014 1 2) "Assets:Cash" "Called the bank".

Definition price : data.Price :=
  data.mkPrice (mkDate 2014 1 3) "GOOG" (usd 5200 (-1)).

Definition balance : data.Balance :=
  data.mkBalance (mkDate 2014 1 4) "Assets:Cash" (usd 10000 (-2)).

(** [Assets:Investment  5 GOOG {520.0 USD} @ 530.0 USD]. *)
Definition goog_priced (owner : data.ref) : data.Posting :=
  data.mkPosting (Some owner) "Assets:Investment"
    (Some (position.mkPosition
             (position.mkLot "GOOG" (Some (usd 5200 (-1))) None)
             (mkDecimal false 5 0)))
    (Some (usd 5300 (-1))) None.

(** A posting at cost with a price, beside a posting without a position. *)
Definition gift : data.Transaction :=
  data.mkTransaction (mkDate 2014 11 6) (Some "*") None "Gift"
    None None [goog_priced 6; bare 6].

Definition objects_with_gift : heap := <[ 6 := gift ]> objects.

(** A balancer that finds half a cent to absorb: the transaction it
    returns is a new object, here 7, with the postings of the given one and
    one more on the rounding account. *)
Definition reparent (owner : data.ref) (posting : data.Posting)
  : data.Posting :=
  data.mkPosting (Some owner) (data.posting_account posting)
    (data.posting_position posting) (data.posting_price posting)
    (data.posting_flag posting).

Definition rounded (entry : data.Transaction) (account : string)
  : data.Transaction :=
  replace entry
    ((reparent 7 <$> data.txn_postings entry)
       ++ [data.mkPosting (Some 7) account
             (Some (position.mkPosition (position.mkLot "USD" None None)
                      (mkDecimal false 5 (-3))))
             None None])
    None.

Definition collaborators_rounding : Collaborators := {|
  MAXDIGITS_PRINTER := 12;
  Amount_str a _ := amount_text a;
  Amount_to_string := amount_text;
  Position_strs := strs;
  Position_neg pos :=
    position.mkPosition (position.lot pos) (negate (position.number pos));
  date_format := ymd;
  fill_residual_posting := rounded;
  get_posting_weight := weight;
  entry_replace := replace |}.

Definition objects_rounded : heap :=
  <[ 7 := rounded fees "Equity:Rounding" ]> objects.

(** The two entries that the stock purchase is split in: the weight of
    [-2939.46 CAD @ 0.8879 USD] is [-2609.946534 USD]. *)
Definition buy_stock_conversion : data.Transaction :=
  data.mkTransaction (mkDate 2014 11 2) (Some "*") None
    "Buy stock (Currency conversion)" None None
    [cash 1;
     data.mkPosting None "Assets:Cash"
       (Some (position.mkPosition (position.mkLot "USD" None None)
                (mkDecimal false 2609946534 (-6))))
       None None].

Definition buy_stock_converted : data.Transaction :=
  data.mkTransaction (mkDate 2014 11 2) (Some "*") None "Buy stock" None None
    [goog 1; commission 1;
     data.mkPosting None "Assets:Cash"
       (Some (position.mkPosition (position.mkLot "USD" None None)
                (mkDecimal true 2609946534 (-6))))
       None None].

(** A ledger without transactions and account openings. *)
Definition remarks : list data.Directive :=
  [data.DNote note; data.DPrice price; data.DBalance balance].

Definition ledger : list data.Directive :=
  [data.DOpen open_account; data.DTransaction buy_stock;
   data.DTransaction hold].

End demo.

(** * Properties *)

(** ** Characters *)

Ltac by_cases_on_char c :=
  destruct c as [[] [] [] [] [] [] [] []]; vm_compute; congruence.

Lemma is_upper_last c : re.is_upper c = true -> re.is_last c = true.
Proof. by_cases_on_char c. Qed.

Lemma is_last_class c : re.is_last c = true -> re.is_class c = true.
Proof. by_cases_on_char c. Qed.

Lemma is_last_word c : re.is_last c = true -> re.is_word c = true.
Proof. by_cases_on_char c. Qed.

Lemma sub_nil before : sub before EmptyString = EmptyString.
Proof. now simp sub. Qed.

Lemma sub_cons before c s :
  sub before (String c s) =
  match re.match_at before (String c s) with
  | Some (tok, rest) => quote tok +:+ sub (pystr.last before tok) rest
  | None => String c (sub (Some c) s)
  end.
Proof.
  simp sub.
  generalize (inspect (re.match_at before (String c s))).
  intros [[[tok rest]|] E]; simp sub; rewrite E; reflexivity.
Qed.

Lemma dquote_not_class : re.is_class dquote = false.
Proof. reflexivity. Qed.

Lemma dquote_not_word : re.is_word dquote = false.
Proof. reflexivity. Qed.

(** ** Strings *)

#[local] Arguments String.append !_ _ / : simpl nomatch.

Lemma str_app_nil_r s : s +:+ "" = s.
Proof. induction s as [|c s IH]; simpl; [reflexivity|now rewrite IH]. Qed.

Lemma str_app_assoc s1 s2 s3 : (s1 +:+ s2) +:+ s3 = s1 +:+ (s2 +:+ s3).
Proof. induction s1 as [|c s1 IH]; simpl; [reflexivity|now rewrite IH]. Qed.

Lemma str_length_app s1 s2 :
  String.length (s1 +:+ s2) = String.length s1 + String.length s2.
Proof. induction s1 as [|c s1 IH]; simpl; [reflexivity|now rewrite IH]. Qed.

Lemma str_all_app f s1 s2 : pystr.all f (s1 +:+ s2) = pystr.all f s1 && pystr.all f s2.
Proof.
  induction s1 as [|c s1 IH]; simpl; [reflexivity|].
  rewrite IH. now rewrite andb_assoc.
Qed.

Lemma last_app_char d s c : pystr.last d (s +:+ String c "") = Some c.
Proof. revert d. induction s as [|a s IH]; intros d; simpl; [reflexivity|apply IH]. Qed.

Lemma last_cons d c s : pystr.last d (String c s) = pystr.last None (String c s).
Proof. reflexivity. Qed.

(** A text of class characters that starts a string with a character outside
    the class in it ends before that character. *)
Lemma prefix_before_stranger t r x q y :
  pystr.all re.is_class t = true -> re.is_class q = false ->
  t +:+ r = x +:+ String q y ->
  exists x', x = t +:+ x' /\ r = x' +:+ String q y.
Proof.
  revert x. induction t as [|a t IH]; intros x Ht Hq E; simpl in *.
  - exists x. split; [reflexivity|assumption].
  - apply andb_true_iff in Ht as [Ha Ht].
    destruct x as [|b x]; simpl in E.
    + injection E as -> _. congruence.
    + injection E as -> E. destruct (IH x Ht Hq E) as (x' & -> & ->).
      exists x'. split; reflexivity.
Qed.

Lemma match_tail_sound n s t r :
  re.match_tail n s = Some (t, r) -> s = t +:+ r /\ is_tail n t r.
Proof.
  revert n t r. induction s as [|c s IH]; intros n t r; simpl; [discriminate|].
  assert (Hlast :
    (if re.is_last c && re.word_boundary (Some c) (pystr.head s)
     then Some (String c "", s) else None) = Some (t, r) ->
    String c s = t +:+ r /\ is_tail n t r).
  { destruct (re.is_last c) eqn:Hc; simpl; [|discriminate].
    destruct (re.word_boundary _ _) eqn:Hb; [|discriminate].
    intros [= <- <-]. split; [reflexivity|].
    exists "", c. repeat split; simpl; auto. lia. }
  destruct n as [|n]; [exact Hlast|].
  destruct (re.is_class c) eqn:Hc; [|exact Hlast].
  destruct (re.match_tail n s) as [[t' r']|] eqn:E; [|exact Hlast].
  intros [= <- <-]. apply IH in E as (-> & mid & z & -> & Hlen & Hmid & Hz & Hb).
  split; [reflexivity|].
  exists (String c mid), z. repeat split; simpl; auto; [lia|].
  now rewrite Hc, Hmid.
Qed.

(** The match is greedy: it is at least as long as any admissible text. *)
Lemma match_tail_complete n s t r :
  is_tail n t r -> s = t +:+ r ->
  exists t' r', re.match_tail n s = Some (t', r')
                /\ String.length t <= String.length t'.
Proof.
  revert n t. induction s as [|c s IH]; intros n t (mid & z & -> & Hlen & Hmid & Hz & Hb) E.
  - destruct mid; discriminate.
  - destruct mid as [|m mid]; simpl in E.
    + injection E as -> ->. simpl. rewrite Hz, Hb. simpl.
      destruct n as [|n]; [eexists _, _; split; [reflexivity|simpl; lia]|].
      rewrite (is_last_class _ Hz).
      destruct (re.match_tail n r) as [[t' r']|];
        eexists _, _; (split; [reflexivity|simpl; lia]).
    + injection E as -> ->. simpl in Hlen, Hmid.
      apply andb_true_iff in Hmid as [Hm Hmid].
      destruct n as [|n]; [lia|]. simpl. rewrite Hm.
      destruct (IH n (mid +:+ String z "")) as (t' & r' & -> & Hl).
      { exists mid, z. repeat split; auto. lia. }
      { reflexivity. }
      eexists _, _. split; [reflexivity|]. simpl. lia.
Qed.

Lemma is_tail_class n t r : is_tail n t r -> pystr.all re.is_class t = true.
Proof.
  intros (mid & z & -> & _ & Hmid & Hz & _).
  rewrite str_all_app, Hmid. simpl. now rewrite (is_last_class _ Hz).
Qed.

Lemma match_at_sound before s t r :
  re.match_at before s = Some (t, r) -> s = t +:+ r /\ token_at before t r.
Proof.
  destruct s as [|c s]; simpl; [discriminate|].
  destruct (re.word_boundary before (Some c)) eqn:Hb; simpl; [|discriminate].
  destruct (re.is_upper c) eqn:Hc; [|discriminate].
  destruct (re.match_tail 10 s) as [[t' r']|] eqn:E; [|discriminate].
  intros [= <- <-].
  apply match_tail_sound in E as (-> & mid & z & -> & Hlen & Hmid & Hz & Hz').
  split; [reflexivity|]. split.
  - exists c, mid, z. auto.
  - split; [exact Hb|]. simpl. now rewrite last_app_char.
Qed.

Lemma match_at_complete before s t r :
  token_at before t r -> s = t +:+ r ->
  exists t' r', re.match_at before s = Some (t', r')
                /\ String.length t <= String.length t'.
Proof.
  intros [(a & mid & z & -> & Ha & Hlen & Hmid & Hz) [Hb Hb']] ->.
  simpl in *. rewrite Hb, Ha. simpl.
  rewrite last_app_char in Hb'.
  destruct (match_tail_complete 10 ((mid +:+ String z "") +:+ r)
              (mid +:+ String z "") r) as (t' & r' & -> & Hl).
  { exists mid, z. auto. }
  { reflexivity. }
  eexists _, _. split; [reflexivity|]. simpl. lia.
Qed.

Lemma token_class t : is_token t -> pystr.all re.is_class t = true.
Proof.
  intros (a & mid & z & -> & Ha & _ & Hmid & Hz). simpl.
  rewrite str_all_app, Hmid, (is_last_class _ (is_upper_last _ Ha)). simpl.
  now rewrite (is_last_class _ Hz).
Qed.

(** ** The currency quoter against the token rule *)

Lemma search_digit_or_period_spec t :
  re.search_digit_or_period t = true <-> has_digit_or_period t.
Proof.
  induction t as [|c t IH]; simpl.
  - split; [discriminate|]. intros (c & [] & _).
  - rewrite orb_true_iff, IH. unfold re.is_digit_or_period.
    rewrite orb_true_iff, Ascii.eqb_eq. split.
    + intros [[Hc|Hc]|(c' & Hin & Hc')].
      * exists c. simpl. auto.
      * exists c. simpl. auto.
      * exists c'. simpl. auto.
    + intros (c' & [<-|Hin] & Hc'); [tauto|].
      right. exists c'. auto.
Qed.

Lemma token_length t : is_token t -> 2 <= String.length t.
Proof.
  intros (a & mid & z & -> & _). simpl. rewrite str_length_app. simpl. lia.
Qed.

Lemma token_last before t : is_token t -> pystr.last before t = pystr.last None t.
Proof. intros (a & mid & z & -> & _). reflexivity. Qed.

Ltac by_length_induction s :=
  let n := fresh "n" in
  let Hn := fresh "Hn" in
  remember (String.length s) as n eqn:Hn;
  revert s Hn;
  induction n as [n IH] using lt_wf_ind;
  intros s Hn; subst n.

Lemma sub_quoted : forall s before, quoted before s (sub before s).
Proof.
  intros s. by_length_induction s. intros before.
  destruct s as [|c s]; [rewrite sub_nil; constructor|].
  rewrite sub_cons.
  destruct (re.match_at before (String c s)) as [[tok rest]|] eqn:E.
  - destruct (match_at_sound _ _ _ _ E) as [Hs [Htok Hdel]].
    assert (Hlong : longest before tok rest).
    { intros t' rest' E' Ht'.
      destruct (match_at_complete before (String c s) t' rest' Ht')
        as (t'' & r'' & E'' & Hl); [congruence|].
      rewrite E in E''. now injection E'' as <- <-. }
    assert (Hrest : quoted (pystr.last None tok) rest
                      (sub (pystr.last before tok) rest)).
    { rewrite (token_last before tok Htok).
      apply (IH (String.length rest)); [|reflexivity].
      apply token_length in Htok. rewrite Hs, str_length_app. lia. }
    rewrite Hs. unfold quote.
    destruct (re.search_digit_or_period tok) eqn:Hd.
    + simpl. rewrite str_app_assoc. simpl.
      apply quoted_wrapped; auto.
      * now split.
      * now apply search_digit_or_period_spec.
    + apply quoted_bare; auto.
      * now split.
      * rewrite <- search_digit_or_period_spec. congruence.
  - apply quoted_other.
    + intros t rest Hs Ht.
      destruct (match_at_complete before (String c s) t rest Ht Hs)
        as (t' & r' & E' & _). congruence.
    + apply (IH (String.length s)); [simpl; lia|reflexivity].
Qed.

(** Two texts of equal length that start the same string are equal. *)
Lemma str_app_inj_length t1 r1 t2 r2 :
  t1 +:+ r1 = t2 +:+ r2 -> String.length t1 = String.length t2 ->
  t1 = t2 /\ r1 = r2.
Proof.
  revert t2. induction t1 as [|a t1 IH]; intros [|b t2] E Hl;
    simpl in *; try discriminate.
  - auto.
  - injection E as -> E. injection Hl as Hl.
    destruct (IH t2 E Hl) as [-> ->]. auto.
Qed.

Lemma token_not_empty t r : is_token t -> t +:+ r <> "".
Proof. intros (a & mid & z & -> & _). discriminate. Qed.

(** The relation [quoted] determines the output. *)
Lemma quoted_unique before s out1 :
  quoted before s out1 -> forall out2, quoted before s out2 -> out1 = out2.
Proof.
  assert (Hsame : forall b t r t' r',
             token_at b t r -> longest b t r ->
             token_at b t' r' -> longest b t' r' ->
             t' +:+ r' = t +:+ r -> t' = t /\ r' = r).
  { intros b t r t' r' Ht Hl Ht' Hl' E.
    apply str_app_inj_length; [exact E|].
    apply Nat.le_antisymm; [now apply (Hl t' r')|now apply (Hl' t r)]. }
  induction 1 as [before
                 |before t rest out Ht Hl Hd _ IH
                 |before t rest out Ht Hl Hd _ IH
                 |before c s out Hno _ IH];
    intros out2 H2.
  - remember EmptyString as s eqn:Hs.
    destruct H2 as [|? t' rest' out' Ht' Hl' Hd' H2|? t' rest' out' Ht' Hl' Hd' H2
                    |? c s' out' Hno H2].
    + reflexivity.
    + now apply token_not_empty in Hs; [|apply Ht'].
    + now apply token_not_empty in Hs; [|apply Ht'].
    + discriminate.
  - remember (t +:+ rest) as s eqn:Hs.
    destruct H2 as [|? t' rest' out' Ht' Hl' Hd' H2|? t' rest' out' Ht' Hl' Hd' H2
                    |? c s' out' Hno H2].
    + symmetry in Hs. now apply token_not_empty in Hs; [|apply Ht].
    + destruct (Hsame _ _ _ _ _ Ht Hl Ht' Hl' Hs) as [-> ->].
      now rewrite (IH _ H2).
    + destruct (Hsame _ _ _ _ _ Ht Hl Ht' Hl' Hs) as [-> ->]. contradiction.
    + now destruct (Hno _ _ Hs).
  - remember (t +:+ rest) as s eqn:Hs.
    destruct H2 as [|? t' rest' out' Ht' Hl' Hd' H2|? t' rest' out' Ht' Hl' Hd' H2
                    |? c s' out' Hno H2].
    + symmetry in Hs. now apply token_not_empty in Hs; [|apply Ht].
    + destruct (Hsame _ _ _ _ _ Ht Hl Ht' Hl' Hs) as [-> ->]. contradiction.
    + destruct (Hsame _ _ _ _ _ Ht Hl Ht' Hl' Hs) as [-> ->].
      now rewrite (IH _ H2).
    + now destruct (Hno _ _ Hs).
  - remember (String c s) as s0 eqn:Hs.
    destruct H2 as [|? t' rest' out' Ht' Hl' Hd' H2|? t' rest' out' Ht' Hl' Hd' H2
                    |? c' s' out' Hno' H2].
    + discriminate.
    + now destruct (Hno _ _ eq_refl).
    + now destruct (Hno _ _ eq_refl).
    + injection Hs as -> ->. now rewrite (IH _ H2).
Qed.

(** ** Quoting twice *)

Lemma quote_length t : String.length t <= String.length (quote t).
Proof.
  unfold quote. destruct (re.search_digit_or_period t); simpl; [|lia].
  rewrite str_length_app. simpl. lia.
Qed.

Lemma sub_length : forall s before, String.length s <= String.length (sub before s).
Proof.
  intros s. by_length_induction s. intros before.
  destruct s as [|c s]; [rewrite sub_nil; simpl; lia|].
  rewrite sub_cons.
  destruct (re.match_at before (String c s)) as [[tok rest]|] eqn:E.
  - destruct (match_at_sound _ _ _ _ E) as [Hs [Htok _]].
    apply token_length in Htok.
    rewrite Hs, !str_length_app.
    pose proof (quote_length tok).
    assert (String.length rest <= String.length (sub (pystr.last before tok) rest)).
    { apply (IH (String.length rest)); [|reflexivity].
      rewrite Hs, str_length_app. lia. }
    lia.
  - simpl.
    assert (String.length s <= String.length (sub (Some c) s)).
    { apply (IH (String.length s)); [simpl; lia|reflexivity]. }
    lia.
Qed.

(** The scan cannot jump over a double quote: no match contains one. *)
Lemma sub_through_dquote : forall x before y,
  exists z, sub before (x +:+ String dquote y)
            = z +:+ String dquote (sub (Some dquote) y)
            /\ String.length x <= String.length z.
Proof.
  intros x. by_length_induction x. intros before y.
  destruct x as [|c x]; simpl.
  - exists "". rewrite sub_cons. simpl.
    rewrite andb_false_r. split; [reflexivity|simpl; lia].
  - rewrite sub_cons.
    destruct (re.match_at before (String c (x +:+ String dquote y)))
      as [[tok rest]|] eqn:E.
    + destruct (match_at_sound _ _ _ _ E) as [Hs [Htok _]].
      destruct (prefix_before_stranger tok rest (String c x) dquote y)
        as (x' & Hx & ->); [now apply token_class|reflexivity|now rewrite <- Hs|].
      apply token_length in Htok as Hl.
      assert (Hlt : String.length x' < String.length (String c x))
        by (rewrite Hx, str_length_app; lia).
      destruct (IH _ Hlt x' eq_refl (pystr.last before tok) y) as (z & -> & Hz).
      exists (quote tok +:+ z). rewrite str_app_assoc. split; [reflexivity|].
      change (S (String.length x)) with (String.length (String c x)).
      rewrite Hx, !str_length_app. pose proof (quote_length tok). lia.
    + assert (Hlt : String.length x < String.length (String c x))
        by (simpl; lia).
      destruct (IH _ Hlt x eq_refl (Some c) y) as (z & -> & Hz).
      exists (String c z). split; [reflexivity|simpl; lia].
Qed.

(** A token between double quotes is matched again, whole. *)
Lemma match_at_requoted t r :
  is_token t ->
  re.match_at (Some dquote) (t +:+ String dquote r) = Some (t, String dquote r).
Proof.
  intros Ht.
  assert (Hat : token_at (Some dquote) t (String dquote r)).
  { split; [exact Ht|].
    destruct Ht as (a & mid & z & -> & Ha & _ & _ & Hz). split; simpl.
    - unfold re.word_boundary. simpl.
      now rewrite (is_last_word _ (is_upper_last _ Ha)).
    - rewrite last_app_char. unfold re.word_boundary. simpl.
      now rewrite (is_last_word _ Hz). }
  destruct (match_at_complete _ _ _ _ Hat eq_refl) as (t' & r' & E & Hl).
  rewrite E.
  destruct (match_at_sound _ _ _ _ E) as [Hs [Ht' _]].
  destruct (prefix_before_stranger t' r' t dquote r)
    as (x' & Hx & ->); [now apply token_class|reflexivity|now rewrite <- Hs|].
  assert (x' = "") as ->.
  { assert (Hlen : String.length t = String.length t' + String.length x')
      by (rewrite Hx at 1; apply str_length_app).
    destruct x'; [reflexivity|simpl in Hlen; lia]. }
  rewrite str_app_nil_r in Hx. subst t'. reflexivity.
Qed.

(** A changed text holds a token between double quotes. *)
Lemma sub_changed : forall s before,
  sub before s <> s ->
  exists p t r,
    is_token t /\ re.search_digit_or_period t = true /\
    sub before s = p +:+ String dquote (t +:+ String dquote r).
Proof.
  intros s. by_length_induction s. intros before.
  destruct s as [|c s]; [rewrite sub_nil; congruence|].
  rewrite sub_cons.
  destruct (re.match_at before (String c s)) as [[tok rest]|] eqn:E.
  - destruct (match_at_sound _ _ _ _ E) as [Hs [Htok _]].
    unfold quote. destruct (re.search_digit_or_period tok) eqn:Hd.
    + intros _. exists "", tok, (sub (pystr.last before tok) rest).
      split; [exact Htok|]. split; [exact Hd|]. simpl. now rewrite str_app_assoc.
    + intros Hne.
      assert (Hlt : String.length rest < String.length (String c s))
        by (apply token_length in Htok; rewrite Hs, str_length_app; lia).
      destruct (IH _ Hlt rest eq_refl (pystr.last before tok))
        as (p & t & r & Ht & Hq & ->).
      * intros Heq. apply Hne. rewrite Heq. now rewrite Hs.
      * exists (tok +:+ p), t, r. split; [exact Ht|]. split; [exact Hq|].
        now rewrite str_app_assoc.
  - intros Hne.
    assert (Hlt : String.length s < String.length (String c s))
      by (simpl; lia).
    destruct (IH _ Hlt s eq_refl (Some c)) as (p & t & r & Ht & Hq & ->).
    + intros Heq. apply Hne. now rewrite Heq.
    + exists (String c p), t, r. split; [exact Ht|]. split; [exact Hq|reflexivity].
Qed.

Lemma sub_grows_again s before before' :
  sub before s <> s ->
  String.length (sub before s) < String.length (sub before' (sub before s)).
Proof.
  intros Hne.
  destruct (sub_changed s before Hne) as (p & t & r & Ht & Hq & ->).
  destruct (sub_through_dquote p before' (t +:+ String dquote r))
    as (z & -> & Hz).
  destruct Ht as (a & mid & yy & -> & Ht).
  assert (Ht' : is_token (String a (mid +:+ String yy "")))
    by (exists a, mid, yy; auto).
  simpl. rewrite sub_cons.
  change (String a ((mid +:+ String yy "") +:+ String dquote r))
    with (String a (mid +:+ String yy "") +:+ String dquote r).
  rewrite (match_at_requoted _ r Ht').
  unfold quote. rewrite Hq.
  pose proof (sub_length (String dquote r)
                (pystr.last (Some dquote) (String a (mid +:+ String yy "")))).
  repeat (rewrite str_length_app; simpl). simpl in H. lia.
Qed.

(** ** The posting classifier *)

Lemma step_classify acc posting :
  has_position posting ->
  postings_by_type_step acc posting =
  inr (acc.1.1 ++ bucket_of simple [posting],
       acc.1.2 ++ bucket_of at_price [posting],
       acc.2 ++ bucket_of at_cost [posting]).
Proof.
  destruct acc as [[s p] c]. intros [pos Hpos].
  unfold postings_by_type_step, bucket_of, classify, lot_cost.
  rewrite !filter_singleton by exact []. rewrite Hpos. simpl.
  destruct (position.cost (position.lot pos)); simpl;
    [|destruct (data.posting_price posting); simpl];
    now rewrite !app_nil_r.
Qed.

Lemma loop_classify postings : forall acc,
  Forall has_position postings ->
  postings_by_type_loop acc postings =
  inr (acc.1.1 ++ bucket_of simple postings,
       acc.1.2 ++ bucket_of at_price postings,
       acc.2 ++ bucket_of at_cost postings).
Proof.
  induction postings as [|x l IH]; intros [[s p] c] Hall;
    cbn [postings_by_type_loop].
  - unfold bucket_of. simpl. now rewrite !filter_nil, !app_nil_r.
  - inversion Hall as [|? ? Hx Hl]; subst.
    rewrite (step_classify _ _ Hx), (IH _ Hl). simpl.
    unfold bucket_of.
    change (x :: l) with ([x] ++ l). rewrite !filter_app.
    now rewrite <- !app_assoc.
Qed.

Lemma loop_no_position postings : forall acc,
  ~ Forall has_position postings ->
  postings_by_type_loop acc postings = inl AttributeError.
Proof.
  induction postings as [|x l IH]; intros acc Hall;
    cbn [postings_by_type_loop].
  - destruct Hall. constructor.
  - destruct (data.posting_position x) as [pos|] eqn:Hpos.
    + rewrite step_classify by (now exists pos).
      apply IH. intros Hl. apply Hall. constructor; [now exists pos|exact Hl].
    + unfold postings_by_type_step. destruct acc as [[s p] c].
      now rewrite Hpos.
Qed.

Lemma buckets_permutation postings :
  bucket_of simple postings ++ bucket_of at_price postings
    ++ bucket_of at_cost postings ≡ₚ postings.
Proof.
  unfold bucket_of. induction postings as [|x l IH]; [reflexivity|].
  rewrite !filter_cons.
  destruct (classify x) eqn:Hx;
    repeat (rewrite decide_True by reflexivity
            || rewrite decide_False by discriminate); simpl.
  - now rewrite IH.
  - rewrite <- Permutation_middle. now rewrite IH.
  - rewrite app_assoc, <- Permutation_middle, <- app_assoc. now rewrite IH.
Qed.

(** C2, as amended: for every transaction all of whose postings carry a
    position, the classifier returns (simple, at price, at cost), each bucket
    being the postings of its class in their original order; the three
    buckets partition the postings; and a posting with both a cost on its lot
    and a price is at cost and not at price. *)
Theorem postings_by_type_partition (entry : data.Transaction) :
  Forall has_position (data.txn_postings entry) ->
  postings_by_type entry =
    inr (bucket_of simple (data.txn_postings entry),
         bucket_of at_price (data.txn_postings entry),
         bucket_of at_cost (data.txn_postings entry))
  /\ bucket_of simple (data.txn_postings entry)
       ++ bucket_of at_price (data.txn_postings entry)
       ++ bucket_of at_cost (data.txn_postings entry)
     ≡ₚ data.txn_postings entry
  /\ bucket_of simple (data.txn_postings entry) `sublist_of` data.txn_postings entry
  /\ bucket_of at_price (data.txn_postings entry) `sublist_of` data.txn_postings entry
  /\ bucket_of at_cost (data.txn_postings entry) `sublist_of` data.txn_postings entry
  /\ forall posting,
       posting ∈ data.txn_postings entry ->
       is_Some (lot_cost posting) -> is_Some (data.posting_price posting) ->
       posting ∈ bucket_of at_cost (data.txn_postings entry)
       /\ posting ∉ bucket_of at_price (data.txn_postings entry).
Proof.
  intros Hall. split; [|split; [|split; [|split; [|split]]]].
  - unfold postings_by_type. now rewrite loop_classify.
  - apply buckets_permutation.
  - apply sublist_filter.
  - apply sublist_filter.
  - apply sublist_filter.
  - intros posting Hin [c Hc] [pr Hpr].
    assert (Hcls : classify posting = at_cost)
      by (unfold classify; now rewrite Hc).
    unfold bucket_of. rewrite !list_elem_of_filter. split; [auto|].
    intros [Hp _]. congruence.
Qed.

(** ** Splitting of currency conversions *)

Section SplitProperties.
Context `{Collaborators}.

Lemma fold_split_step entry postings : forall new_entries replacement_postings,
  fold_left (split_step entry) postings (new_entries, replacement_postings)
  = (new_entries ++ (currency_entry entry <$> postings),
     replacement_postings ++ (posting_pos <$> postings)).
Proof.
  induction postings as [|x l IH]; intros es rs; simpl.
  - now rewrite !app_nil_r.
  - rewrite IH. now rewrite <- !app_assoc.
Qed.

Lemma split_currency_conversions_run (entry : data.Transaction) :
  Forall has_position (data.txn_postings entry) ->
  let postings_simple := bucket_of simple (data.txn_postings entry) in
  let postings_at_price := bucket_of at_price (data.txn_postings entry) in
  let postings_at_cost := bucket_of at_cost (data.txn_postings entry) in
  split_currency_conversions entry
  = inr (VList (list_and postings_at_cost postings_at_price),
         if list_truth (list_and postings_at_cost postings_at_price)
         then (currency_entry entry <$> postings_at_price)
              ++ [entry_replace entry
                    (postings_at_cost ++ postings_simple
                       ++ (posting_pos <$> postings_at_price))
                    None]
         else [entry]).
Proof.
  intros Hall ps pp pc. subst ps pp pc.
  unfold split_currency_conversions, postings_by_type.
  rewrite loop_classify by exact Hall. cbn [fst snd app].
  destruct (list_truth _); [|reflexivity].
  now rewrite fold_split_step.
Qed.

Lemma split_currency_conversions_no_position (entry : data.Transaction) :
  ~ Forall has_position (data.txn_postings entry) ->
  split_currency_conversions entry = inl AttributeError.
Proof.
  intros Hall. unfold split_currency_conversions, postings_by_type.
  now rewrite loop_no_position.
Qed.

(** The first component is never a boolean. *)
Lemma split_currency_conversions_not_bool (entry : data.Transaction) b entries :
  split_currency_conversions entry <> inr (VBool b, entries).
Proof.
  unfold split_currency_conversions.
  destruct (postings_by_type entry) as [e|[[ps pp] pc]]; [discriminate|].
  destruct (list_truth _); [|discriminate].
  destruct (fold_left _ _ _). discriminate.
Qed.
End SplitProperties.

(** ** The lists as objects *)

Lemma kept_dom s0 s l : kept s0 s -> l ∈ dom s0 -> l ∈ dom s.
Proof.
  intros Hk Hl. apply elem_of_dom. rewrite (Hk l Hl).
  now apply elem_of_dom.
Qed.

Lemma kept_insert s0 s l o : kept s0 s -> l ∉ dom s0 -> kept s0 (<[ l := o ]> s).
Proof.
  intros Hk Hl l' Hl'. rewrite lookup_insert_ne by congruence.
  now apply Hk.
Qed.

Lemma kept_fresh s0 s : kept s0 s -> fresh (dom s) ∉ dom s0.
Proof.
  intros Hk Hl. apply (is_fresh (dom s)). now apply (kept_dom s0).
Qed.

Lemma keeps_ret {A : Type} s0 (a : A) (Q : A -> Prop) :
  Q a -> keeps s0 (mem.ret a) Q.
Proof. intros Ha s out s' Hk [= <- <-]. now split. Qed.

Lemma keeps_raise {A : Type} s0 e (Q : A -> Prop) : keeps s0 (mem.raise e) Q.
Proof. intros s out s' Hk [= <- <-]. now split. Qed.

Lemma keeps_bind {A B : Type} s0 (m : mem.st A) (k : A -> mem.st B)
    (Q : A -> Prop) (R : B -> Prop) :
  keeps s0 m Q -> (forall a, Q a -> keeps s0 (k a) R) ->
  keeps s0 (mem.bind m k) R.
Proof.
  intros Hm Hk s out s' Hs. unfold mem.bind.
  destruct (m s) as [[[e|a] s1]|] eqn:Hrun; [| |discriminate].
  - intros [= <- <-]. split; [|exact I].
    now destruct (Hm s (inl e) s1 Hs Hrun).
  - destruct (Hm s (inr a) s1 Hs Hrun) as [Hs1 Ha].
    now apply Hk.
Qed.

Lemma keeps_new s0 o : keeps s0 (mem.new o) (fun l => l ∉ dom s0).
Proof.
  intros s out s' Hk [= <- <-]. split; [|now apply kept_fresh].
  apply kept_insert; [exact Hk|now apply kept_fresh].
Qed.

Lemma keeps_postings_of s0 l : keeps s0 (mem.postings_of l) (fun _ => True).
Proof.
  intros s out s' Hk. unfold mem.postings_of.
  destruct (s !! l) as [[postings|entries]|]; intros [= <- <-]; now split.
Qed.

Lemma keeps_append_posting s0 l posting :
  l ∉ dom s0 -> keeps s0 (mem.append_posting l posting) (fun _ => True).
Proof.
  intros Hl s out s' Hk. unfold mem.append_posting.
  destruct (s !! l) as [[postings|entries]|]; intros [= <- <-];
    split; try exact I; try exact Hk.
  now apply kept_insert.
Qed.

Lemma keeps_append_entry s0 l entry :
  l ∉ dom s0 -> keeps s0 (mem.append_entry l entry) (fun _ => True).
Proof.
  intros Hl s out s' Hk. unfold mem.append_entry.
  destruct (s !! l) as [[postings|entries]|]; intros [= <- <-];
    split; try exact I; try exact Hk.
  now apply kept_insert.
Qed.

Lemma keeps_for_in s0 body l :
  (forall posting, keeps s0 (body posting) (fun _ => True)) ->
  forall turns i, keeps s0 (mem.for_in turns l i body) (fun _ => True).
Proof.
  intros Hbody. induction turns as [|turns IH]; intros i s out s' Hk;
    cbn [mem.for_in];
    destruct (s !! l) as [[postings|entries]|];
    try (intros [= <- <-]; now split);
    destruct (postings !! i) as [posting|];
    try (intros [= <- <-]; now split).
  apply (keeps_bind s0 _ _ (fun _ => True) (fun _ => True));
    [apply Hbody|intros _ _; apply IH|exact Hk].
Qed.

Section Frame.
Context `{Collaborators}.

Lemma keeps_entry_replace_in s0 entry l narration :
  l ∉ dom s0 ->
  keeps s0 (mem.entry_replace_in entry l narration) (fun _ => True).
Proof.
  intros Hl. unfold mem.entry_replace_in.
  eapply keeps_bind; [apply keeps_postings_of|]. intros old _.
  eapply keeps_bind; [apply keeps_postings_of|]. intros postings _.
  intros s out s' Hk [= <- <-]. split; [|exact I].
  now apply kept_insert.
Qed.

Lemma keeps_postings_by_type s0 turns entry :
  keeps s0 (mem.postings_by_type turns entry)
    (fun '(postings_simple, postings_at_price, postings_at_cost) =>
       (postings_simple ∉ dom s0) /\ (postings_at_price ∉ dom s0)
       /\ (postings_at_cost ∉ dom s0)).
Proof.
  unfold mem.postings_by_type.
  eapply keeps_bind; [apply keeps_new|]. intros pc Hpc.
  eapply keeps_bind; [apply keeps_new|]. intros pp Hpp.
  eapply keeps_bind; [apply keeps_new|]. intros ps Hps.
  eapply keeps_bind.
  - apply keeps_for_in. intros posting.
    destruct (data.posting_position posting) as [pos|];
      [|apply keeps_raise].
    apply keeps_append_posting.
    destruct (amount.truth _); [exact Hpc|].
    destruct (amount.truth _); [exact Hpp|exact Hps].
  - intros _ _. now apply keeps_ret.
Qed.

Lemma keeps_split_currency_conversions s0 turns entry :
  keeps s0 (mem.split_currency_conversions turns entry)
    (fun '(converted, new_entries) =>
       (converted ∉ dom s0) /\ (new_entries ∉ dom s0)).
Proof.
  unfold mem.split_currency_conversions.
  eapply keeps_bind; [apply keeps_postings_by_type|].
  intros [[ps pp] pc] (Hps & Hpp & Hpc).
  eapply keeps_bind; [apply keeps_postings_of|]. intros at_cost _.
  assert (Hconv : (if list_truth at_cost then pp else pc) ∉ dom s0)
    by now destruct (list_truth at_cost).
  eapply keeps_bind; [apply keeps_postings_of|]. intros conversions _.
  destruct (list_truth conversions).
  - eapply keeps_bind; [apply keeps_new|]. intros ne Hne.
    eapply keeps_bind; [apply keeps_new|]. intros rp Hrp.
    eapply keeps_bind.
    + apply keeps_for_in. intros posting_orig.
      eapply keeps_bind; [apply keeps_new|]. intros l Hl.
      eapply keeps_bind; [now apply keeps_entry_replace_in|].
      intros currency_entry _.
      eapply keeps_bind; [now apply keeps_append_entry|]. intros _ _.
      now apply keeps_append_posting.
    + intros _ _.
      eapply keeps_bind; [apply keeps_postings_of|]. intros l1 _.
      eapply keeps_bind; [apply keeps_postings_of|]. intros l2 _.
      eapply keeps_bind; [apply keeps_postings_of|]. intros l3 _.
      eapply keeps_bind; [apply keeps_new|]. intros l Hl.
      eapply keeps_bind; [now apply keeps_entry_replace_in|].
      intros converted_entry _.
      eapply keeps_bind; [now apply keeps_append_entry|]. intros _ _.
      now apply keeps_ret.
  - eapply keeps_bind; [apply keeps_new|]. intros ne Hne.
    now apply keeps_ret.
Qed.
End Frame.

Lemma fresh_ne (s : mem.store) l o : s !! l = Some o -> fresh (dom s) <> l.
Proof.
  intros Hl Heq. apply (is_fresh (dom s)). rewrite Heq.
  now apply (elem_of_dom_2 s l o).
Qed.

Lemma value_object_of entry l :
  mem.value (mem.object_of entry l) (data.txn_postings entry) = entry.
Proof. now destruct entry. Qed.

Lemma for_in_run (I : list data.Posting -> mem.store -> Prop) body l postings :
  (forall done s, I done s -> s !! l = Some (mem.Postings postings)) ->
  (forall done posting rest s,
      postings = done ++ posting :: rest -> I done s ->
      exists s', body posting s = Some (inr tt, s')
                 /\ I (done ++ [posting]) s') ->
  forall rest done turns s,
    postings = done ++ rest -> length rest <= turns -> I done s ->
    exists s',
      mem.for_in turns l (length done) body s = Some (inr tt, s')
      /\ I postings s'.
Proof.
  intros Hl Hbody.
  induction rest as [|posting rest IH]; intros done turns s Hp Hlen HI.
  - rewrite app_nil_r in Hp. exists s. split; [|now rewrite Hp].
    destruct turns; cbn [mem.for_in]; rewrite (Hl _ _ HI), Hp;
      rewrite lookup_ge_None_2 by lia; reflexivity.
  - destruct turns as [|turns]; [simpl in Hlen; lia|]. cbn [mem.for_in].
    assert (Hi : postings !! length done = Some posting)
      by (rewrite Hp; now apply list_lookup_middle).
    rewrite (Hl _ _ HI), Hi.
    destruct (Hbody done posting rest s Hp HI) as (s1 & Hrun & HI1).
    unfold mem.bind at 1. rewrite Hrun.
    destruct (IH (done ++ [posting]) turns s1) as (s' & Hfor & HI').
    + now rewrite <- app_assoc.
    + simpl in Hlen. lia.
    + exact HI1.
    + exists s'. rewrite length_app, Nat.add_1_r in Hfor. now split.
Qed.

Lemma bucket_of_snoc b done posting :
  bucket_of b (done ++ [posting])
  = bucket_of b done ++ (if decide (classify posting = b) then [posting] else []).
Proof.
  unfold bucket_of. rewrite filter_app, filter_singleton by exact [].
  now destruct (decide _).
Qed.

Section Run.
Context `{Collaborators}.

Lemma postings_by_type_run turns (entry : mem.Transaction) s0 postings :
  s0 !! mem.txn_postings entry = Some (mem.Postings postings) ->
  Forall has_position postings ->
  length postings <= turns ->
  exists postings_simple postings_at_price postings_at_cost s1,
    mem.postings_by_type turns entry s0
    = Some (inr (postings_simple, postings_at_price, postings_at_cost), s1)
    /\ s1 !! mem.txn_postings entry = Some (mem.Postings postings)
    /\ s1 !! postings_simple = Some (mem.Postings (bucket_of simple postings))
    /\ s1 !! postings_at_price
       = Some (mem.Postings (bucket_of at_price postings))
    /\ s1 !! postings_at_cost
       = Some (mem.Postings (bucket_of at_cost postings))
    /\ NoDup [mem.txn_postings entry; postings_simple; postings_at_price;
              postings_at_cost].
Proof.
  intros Hl Hall Hlen. unfold mem.postings_by_type.
  set (l := mem.txn_postings entry) in *.
  set (pc := fresh (dom s0)).
  set (sa := <[ pc := mem.Postings [] ]> s0).
  set (pp := fresh (dom sa)).
  set (sb := <[ pp := mem.Postings [] ]> sa).
  set (ps := fresh (dom sb)).
  set (sc := <[ ps := mem.Postings [] ]> sb).
  assert (Hpc : pc <> l) by (apply (fresh_ne s0 l _ Hl)).
  assert (Hla : sa !! l = Some (mem.Postings postings))
    by (unfold sa; now rewrite lookup_insert_ne).
  assert (Hpca : sa !! pc = Some (mem.Postings []))
    by (unfold sa; now rewrite lookup_insert_eq).
  assert (Hpp : pp <> l) by (apply (fresh_ne sa l _ Hla)).
  assert (Hppc : pp <> pc) by (apply (fresh_ne sa pc _ Hpca)).
  assert (Hlb : sb !! l = Some (mem.Postings postings))
    by (unfold sb; now rewrite lookup_insert_ne).
  assert (Hpcb : sb !! pc = Some (mem.Postings []))
    by (unfold sb; now rewrite lookup_insert_ne).
  assert (Hppb : sb !! pp = Some (mem.Postings []))
    by (unfold sb; now rewrite lookup_insert_eq).
  assert (Hps : ps <> l) by (apply (fresh_ne sb l _ Hlb)).
  assert (Hpsc : ps <> pc) by (apply (fresh_ne sb pc _ Hpcb)).
  assert (Hpsp : ps <> pp) by (apply (fresh_ne sb pp _ Hppb)).
  set (I := fun (done : list data.Posting) (s : mem.store) =>
    s !! l = Some (mem.Postings postings)
    /\ s !! ps = Some (mem.Postings (bucket_of simple done))
    /\ s !! pp = Some (mem.Postings (bucket_of at_price done))
    /\ s !! pc = Some (mem.Postings (bucket_of at_cost done))).
  set (body := fun posting : data.Posting =>
    match data.posting_position posting with
    | Some pos =>
        mem.append_posting
          (if amount.truth (position.cost (position.lot pos)) then pc
           else if amount.truth (data.posting_price posting) then pp else ps)
          posting
    | None => mem.raise AttributeError
    end).
  destruct (for_in_run I body l postings) with
    (rest := postings) (done := @nil data.Posting) (turns := turns) (s := sc)
    as (s1 & Hfor & Hl1 & Hps1 & Hpp1 & Hpc1).
  - now intros done s [Hs _].
  - intros done posting rest s Hsplit (Hsl & Hsps & Hspp & Hspc).
    assert (Hpos : has_position posting).
    { rewrite Forall_forall in Hall. apply Hall. rewrite Hsplit.
      apply elem_of_app. right. apply list_elem_of_here. }
    destruct Hpos as [pos Hpos]. unfold body, I. rewrite Hpos.
    rewrite !bucket_of_snoc. unfold classify, lot_cost. rewrite Hpos.
    cbn [mbind option_bind].
    destruct (position.cost (position.lot pos)) as [c|];
      [|destruct (data.posting_price posting) as [price|]];
      cbn [amount.truth]; unfold mem.append_posting;
      rewrite ?Hspc, ?Hspp, ?Hsps; eexists; (split; [reflexivity|]);
      repeat (destruct (decide _) as [?|?]; try congruence);
      rewrite ?app_nil_r;
      repeat split;
      rewrite ?lookup_insert_eq, ?lookup_insert_ne by congruence;
      try assumption; reflexivity.
  - reflexivity.
  - exact Hlen.
  - unfold I, sc. repeat split.
    + now rewrite lookup_insert_ne.
    + now rewrite lookup_insert_eq.
    + now rewrite lookup_insert_ne.
    + rewrite lookup_insert_ne by congruence. exact Hpcb.
  - exists ps, pp, pc, s1.
    unfold mem.bind, mem.new. fold pc sa pp sb ps sc.
    cbn [length] in Hfor. fold body. rewrite Hfor. unfold mem.ret.
    repeat split; try assumption.
    rewrite !NoDup_cons, !not_elem_of_cons.
    repeat split; try congruence; try apply not_elem_of_nil; apply NoDup_nil_2.
Qed.
End Run.

Section RunSplit.
Context `{Collaborators}.

Lemma entry_replace_in_run (entry : mem.Transaction) l narration s old postings :
  s !! mem.txn_postings entry = Some (mem.Postings old) ->
  s !! l = Some (mem.Postings postings) ->
  let replaced := entry_replace (mem.value entry old) postings narration in
  mem.entry_replace_in entry l narration s
  = Some (inr (mem.object_of replaced l),
          <[ l := mem.Postings (data.txn_postings replaced) ]> s).
Proof.
  intros Hold Hl replaced. unfold mem.entry_replace_in, mem.bind.
  unfold mem.postings_of at 1. rewrite Hold.
  unfold mem.postings_of at 1. rewrite Hl. reflexivity.
Qed.

Lemma load_object_of (s : mem.store) entry l :
  s !! l = Some (mem.Postings (data.txn_postings entry)) ->
  mem.load s (mem.object_of entry l) = Some entry.
Proof.
  intros Hl. unfold mem.load. cbn [mem.object_of mem.txn_postings].
  rewrite Hl. now rewrite value_object_of.
Qed.

Lemma load_insert_ne (s : mem.store) obj l o :
  l <> mem.txn_postings obj ->
  mem.load (<[ l := o ]> s) obj = mem.load s obj.
Proof. intros Hne. unfold mem.load. now rewrite lookup_insert_ne. Qed.

Lemma load_dom (s : mem.store) obj v :
  mem.load s obj = Some v -> exists o, s !! mem.txn_postings obj = Some o.
Proof.
  unfold mem.load. destruct (s !! mem.txn_postings obj) as [o|];
    [eauto|discriminate].
Qed.

(** The loop over the postings at price. *)
Lemma conversions_run turns (entry : mem.Transaction) (s0 : mem.store)
    postings at_price pp ne rp :
  let body := fun posting_orig : data.Posting =>
    mem.bind (mem.new (mem.Postings [posting_orig; posting_neg posting_orig]))
      (fun l =>
    mem.bind (mem.entry_replace_in entry l
                (Some (mem.txn_narration entry +:+ " (Currency conversion)")))
      (fun currency_entry =>
    mem.bind (mem.append_entry ne currency_entry) (fun _ =>
    mem.append_posting rp (posting_pos posting_orig)))) in
  let keep := fun (s : mem.store) =>
    forall l, l <> ne -> l <> rp -> is_Some (s0 !! l) -> s !! l = s0 !! l in
  s0 !! mem.txn_postings entry = Some (mem.Postings postings) ->
  s0 !! pp = Some (mem.Postings at_price) ->
  s0 !! ne = Some (mem.Entries []) ->
  s0 !! rp = Some (mem.Postings []) ->
  NoDup [mem.txn_postings entry; pp; ne; rp] ->
  length at_price <= turns ->
  exists s1 entries,
    mem.for_in turns pp 0 body s0 = Some (inr tt, s1)
    /\ keep s1
    /\ s1 !! ne = Some (mem.Entries entries)
    /\ s1 !! rp = Some (mem.Postings (posting_pos <$> at_price))
    /\ Forall2 (fun obj posting_orig =>
                  mem.load s1 obj
                  = Some (currency_entry (mem.value entry postings)
                            posting_orig)
                  /\ mem.txn_postings obj <> ne
                  /\ mem.txn_postings obj <> rp
                  /\ s0 !! mem.txn_postings obj = None)
         entries at_price.
Proof.
  intros body keep Hl Hpp Hne Hrp Hdup Hlen.
  apply NoDup_cons in Hdup as [Hl_ Hdup].
  apply NoDup_cons in Hdup as [Hpp_ Hdup].
  apply NoDup_cons in Hdup as [Hne_ _].
  assert (Hlne : mem.txn_postings entry <> ne) by set_solver.
  assert (Hlrp : mem.txn_postings entry <> rp) by set_solver.
  assert (Hppne : pp <> ne) by set_solver.
  assert (Hpprp : pp <> rp) by set_solver.
  assert (Hnerp : ne <> rp) by set_solver.
  set (R := fun (s : mem.store) (obj : mem.Transaction)
                (posting_orig : data.Posting) =>
    mem.load s obj
    = Some (currency_entry (mem.value entry postings) posting_orig)
    /\ mem.txn_postings obj <> ne
    /\ mem.txn_postings obj <> rp
    /\ s0 !! mem.txn_postings obj = None).
  set (I := fun (done : list data.Posting) (s : mem.store) =>
    keep s
    /\ (forall l, is_Some (s0 !! l) -> is_Some (s !! l))
    /\ s !! rp = Some (mem.Postings (posting_pos <$> done))
    /\ exists entries,
         s !! ne = Some (mem.Entries entries)
         /\ Forall2 (R s) entries done).
  destruct (for_in_run I body pp at_price) with
    (rest := at_price) (done := @nil data.Posting) (turns := turns) (s := s0)
    as (s1 & Hfor & Hkeep & _ & Hrp1 & entries & Hne1 & Hentries).
  - intros done s (Hk & _). rewrite Hk; [exact Hpp|congruence|congruence|].
    rewrite Hpp. eauto.
  - intros done posting rest s Hsplit (Hk & Hdom & Hsrp & es & Hsne & Hes).
    unfold body. unfold mem.bind at 1. unfold mem.new.
    set (l := fresh (dom s)).
    set (sa := <[ l := mem.Postings [posting; posting_neg posting] ]> s).
    assert (Hsl : s !! mem.txn_postings entry = Some (mem.Postings postings)).
    { rewrite Hk; [exact Hl|congruence|congruence|]. rewrite Hl. eauto. }
    assert (Hl_l : l <> mem.txn_postings entry) by apply (fresh_ne s _ _ Hsl).
    assert (Hl_ne : l <> ne) by apply (fresh_ne s _ _ Hsne).
    assert (Hl_rp : l <> rp) by apply (fresh_ne s _ _ Hsrp).
    assert (Hl0 : s0 !! l = None).
    { destruct (s0 !! l) as [o|] eqn:Ho; [|reflexivity].
      destruct (Hdom l) as [o' Ho']; [rewrite Ho; eauto|].
      now destruct (fresh_ne s l o' Ho'). }
    unfold mem.bind at 1.
    rewrite (entry_replace_in_run entry l _ sa postings
               [posting; posting_neg posting]);
      [|unfold sa; now rewrite lookup_insert_ne
       |unfold sa; now rewrite lookup_insert_eq].
    change (entry_replace (mem.value entry postings)
              [posting; posting_neg posting] (Some _))
      with (currency_entry (mem.value entry postings) posting).
    set (replaced := currency_entry (mem.value entry postings) posting).
    set (sb := <[ l := mem.Postings (data.txn_postings replaced) ]> sa).
    unfold mem.bind, mem.append_entry. cbv beta iota.
    assert (Hsbne : sb !! ne = Some (mem.Entries es))
      by (unfold sb, sa; now rewrite !lookup_insert_ne).
    rewrite Hsbne. unfold mem.append_posting. cbv beta iota.
    set (sc := <[ ne := mem.Entries (es ++ [mem.object_of replaced l]) ]> sb).
    assert (Hscrp : sc !! rp = Some (mem.Postings (posting_pos <$> done)))
      by (unfold sc, sb, sa; now rewrite !lookup_insert_ne).
    rewrite Hscrp. eexists. split; [reflexivity|].
    set (sd := <[ rp := _ ]> sc).
    assert (Hother : forall l', l' <> l -> l' <> ne -> l' <> rp ->
                                sd !! l' = s !! l').
    { intros l' ? ? ?. unfold sd, sc, sb, sa.
      now rewrite !lookup_insert_ne by congruence. }
    repeat split.
    + intros l' Hn1 Hn2 Hsome. rewrite Hother; [now apply Hk| |easy|easy].
      intros ->. rewrite Hl0 in Hsome. now destruct Hsome.
    + intros l' Hsome. unfold sd, sc, sb, sa.
      destruct (decide (l' = rp)) as [->|?];
        [rewrite lookup_insert_eq; eauto|rewrite lookup_insert_ne by congruence].
      destruct (decide (l' = ne)) as [->|?];
        [rewrite lookup_insert_eq; eauto|rewrite lookup_insert_ne by congruence].
      destruct (decide (l' = l)) as [->|?];
        [rewrite lookup_insert_eq; eauto|].
      rewrite !lookup_insert_ne by congruence. now apply Hdom.
    + unfold sd. rewrite lookup_insert_eq. now rewrite fmap_app.
    + exists (es ++ [mem.object_of replaced l]). split.
      * unfold sd, sc. rewrite lookup_insert_ne by congruence.
        now rewrite lookup_insert_eq.
      * apply Forall2_app.
        -- eapply Forall2_impl; [exact Hes|].
           intros obj p (Hload & Hn1 & Hn2 & Hn0). repeat split; try assumption.
           destruct (load_dom _ _ _ Hload) as [o Ho].
           assert (Hnl : l <> mem.txn_postings obj) by apply (fresh_ne s _ _ Ho).
           unfold sd, sc, sb, sa.
           now rewrite !load_insert_ne by congruence.
        -- constructor; [|constructor]. repeat split; try assumption.
           apply load_object_of. cbn [mem.object_of mem.txn_postings].
           unfold sd, sc, sb. rewrite !lookup_insert_ne by congruence.
           now rewrite lookup_insert_eq.
  - reflexivity.
  - exact Hlen.
  - unfold I. split; [|split; [|split]].
    + intros l _ _ _. reflexivity.
    + intros l Hsome. exact Hsome.
    + exact Hrp.
    + exists []. split; [exact Hne|constructor].
  - exists s1, entries. cbn [length] in Hfor. now repeat split.
Qed.

Lemma split_currency_conversions_refines turns (entry : mem.Transaction)
    (s0 : mem.store) postings :
  s0 !! mem.txn_postings entry = Some (mem.Postings postings) ->
  Forall has_position postings ->
  length postings <= turns ->
  exists converted new_entries s1 conversions entries values,
    mem.split_currency_conversions turns entry s0
    = Some (inr (converted, new_entries), s1)
    /\ s1 !! converted = Some (mem.Postings conversions)
    /\ s1 !! new_entries = Some (mem.Entries entries)
    /\ Forall2 (fun obj v => mem.load s1 obj = Some v) entries values
    /\ split_currency_conversions (mem.value entry postings)
       = inr (VList conversions, values)
    /\ (list_truth conversions = false -> entries = [entry]).
Proof.
  intros Hl Hall Hlen.
  destruct (postings_by_type_run turns entry s0 postings Hl Hall Hlen)
    as (ps & pp & pc & s1 & Hrun & Hl1 & Hps1 & Hpp1 & Hpc1 & Hdup).
  apply NoDup_cons in Hdup as [Hl_ Hdup].
  apply NoDup_cons in Hdup as [Hps_ Hdup].
  apply NoDup_cons in Hdup as [Hpp_ _].
  assert (Hlps : mem.txn_postings entry <> ps) by set_solver.
  assert (Hlpp : mem.txn_postings entry <> pp) by set_solver.
  assert (Hlpc : mem.txn_postings entry <> pc) by set_solver.
  assert (Hpspp : ps <> pp) by set_solver.
  assert (Hpspc : ps <> pc) by set_solver.
  assert (Hpppc : pp <> pc) by set_solver.
  pose proof (split_currency_conversions_run (mem.value entry postings) Hall)
    as Hpure. cbv zeta in Hpure. cbn [mem.value data.txn_postings] in Hpure.
  unfold mem.split_currency_conversions. unfold mem.bind at 1.
  rewrite Hrun. unfold mem.bind at 1, mem.postings_of at 1. rewrite Hpc1.
  set (at_cost := bucket_of at_cost postings) in *.
  set (at_price := bucket_of at_price postings) in *.
  set (simples := bucket_of simple postings) in *.
  set (converted := if list_truth at_cost then pp else pc).
  assert (Hconv : s1 !! converted
                  = Some (mem.Postings (list_and at_cost at_price)))
    by (unfold converted; destruct at_cost; [exact Hpc1|exact Hpp1]).
  unfold mem.bind at 1, mem.postings_of at 1. rewrite Hconv.
  destruct (list_truth (list_and at_cost at_price)) eqn:Htruth.
  - unfold mem.bind at 1, mem.new at 1.
    set (ne := fresh (dom s1)).
    set (sa := <[ ne := mem.Entries [] ]> s1).
    unfold mem.bind at 1, mem.new at 1.
    set (rp := fresh (dom sa)).
    set (sb := <[ rp := mem.Postings [] ]> sa).
    assert (Hne_l : ne <> mem.txn_postings entry) by apply (fresh_ne s1 _ _ Hl1).
    assert (Hne_ps : ne <> ps) by apply (fresh_ne s1 _ _ Hps1).
    assert (Hne_pp : ne <> pp) by apply (fresh_ne s1 _ _ Hpp1).
    assert (Hne_pc : ne <> pc) by apply (fresh_ne s1 _ _ Hpc1).
    assert (Hsa : forall l o, s1 !! l = Some o -> sa !! l = Some o).
    { intros l o Ho. unfold sa. rewrite lookup_insert_ne; [exact Ho|].
      apply (fresh_ne s1 _ _ Ho). }
    assert (Hsane : sa !! ne = Some (mem.Entries []))
      by (unfold sa; now rewrite lookup_insert_eq).
    assert (Hsb : forall l o, sa !! l = Some o -> sb !! l = Some o).
    { intros l o Ho. unfold sb. rewrite lookup_insert_ne; [exact Ho|].
      apply (fresh_ne sa _ _ Ho). }
    assert (Hrp_ne : rp <> ne) by apply (fresh_ne sa _ _ Hsane).
    assert (Hrp_l : rp <> mem.txn_postings entry)
      by apply (fresh_ne sa _ _ (Hsa _ _ Hl1)).
    assert (Hrp_ps : rp <> ps) by apply (fresh_ne sa _ _ (Hsa _ _ Hps1)).
    assert (Hrp_pp : rp <> pp) by apply (fresh_ne sa _ _ (Hsa _ _ Hpp1)).
    assert (Hrp_pc : rp <> pc) by apply (fresh_ne sa _ _ (Hsa _ _ Hpc1)).
    destruct (conversions_run turns entry sb postings at_price pp ne rp)
      as (s2 & entries & Hfor & Hkeep & Hne2 & Hrp2 & Hentries).
    + now apply Hsb, Hsa.
    + now apply Hsb, Hsa.
    + now apply Hsb.
    + unfold sb. now rewrite lookup_insert_eq.
    + rewrite !NoDup_cons, !not_elem_of_cons.
    repeat split; try congruence; try apply not_elem_of_nil; apply NoDup_nil_2.
    + unfold at_price, bucket_of. etrans; [apply length_filter|exact Hlen].
    + unfold mem.bind at 1. rewrite Hfor.
      assert (Hs2 : forall l o, l <> ne -> l <> rp -> s1 !! l = Some o ->
                                s2 !! l = Some o).
      { intros l o ? ? Ho. rewrite Hkeep by
          (try assumption; rewrite (Hsb _ _ (Hsa _ _ Ho)); eauto).
        now apply Hsb, Hsa. }
      unfold mem.bind at 1, mem.postings_of at 1.
      rewrite (Hs2 pc _) by (congruence || exact Hpc1).
      unfold mem.bind at 1, mem.postings_of at 1.
      rewrite (Hs2 ps _) by (congruence || exact Hps1).
      unfold mem.bind at 1, mem.postings_of at 1. rewrite Hrp2.
      unfold mem.bind at 1, mem.new at 1.
      set (l := fresh (dom s2)).
      set (sc := <[ l := _ ]> s2).
      assert (Hl2 : s2 !! mem.txn_postings entry = Some (mem.Postings postings))
        by (apply Hs2; congruence || exact Hl1).
      assert (Hpp2 : s2 !! pp = Some (mem.Postings at_price))
        by (apply Hs2; congruence || exact Hpp1).
      assert (Hl_l : l <> mem.txn_postings entry) by apply (fresh_ne s2 _ _ Hl2).
      assert (Hl_ne : l <> ne) by apply (fresh_ne s2 _ _ Hne2).
      assert (Hl_pp : l <> pp) by apply (fresh_ne s2 _ _ Hpp2).
      unfold mem.bind at 1.
      rewrite (entry_replace_in_run entry l None sc postings
                 (at_cost ++ simples ++ (posting_pos <$> at_price)));
        [|unfold sc; now rewrite lookup_insert_ne
         |unfold sc; now rewrite lookup_insert_eq].
      set (replaced := entry_replace (mem.value entry postings) _ None).
      set (sd := <[ l := mem.Postings (data.txn_postings replaced) ]> sc).
      unfold mem.bind, mem.append_entry. cbv beta iota.
      assert (Hsdne : sd !! ne = Some (mem.Entries entries))
        by (unfold sd, sc; now rewrite !lookup_insert_ne).
      rewrite Hsdne. unfold mem.ret.
      set (se := <[ ne := _ ]> sd).
      assert (Hpair : at_cost <> [] /\ at_price <> []).
      { destruct at_cost; [discriminate|]. destruct at_price; [discriminate|].
        split; discriminate. }
      exists converted, ne, se, at_price, (entries ++ [mem.object_of replaced l]),
        ((currency_entry (mem.value entry postings) <$> at_price) ++ [replaced]).
      split; [reflexivity|]. split; [|split; [|split; [|split]]].
      * assert (Hcv : converted = pp)
          by (unfold converted; destruct at_cost; [now destruct Hpair|easy]).
        rewrite Hcv. unfold se, sd, sc.
        now rewrite !lookup_insert_ne by congruence.
      * unfold se. now rewrite lookup_insert_eq.
      * apply Forall2_app.
        -- apply Forall2_fmap_r. eapply Forall2_impl; [exact Hentries|].
           intros obj p (Hload & Hn1 & Hn2 & _).
           destruct (load_dom _ _ _ Hload) as [o Ho].
           assert (Hnl : l <> mem.txn_postings obj) by apply (fresh_ne s2 _ _ Ho).
           unfold se, sd, sc. now rewrite !load_insert_ne by congruence.
        -- constructor; [|constructor]. apply load_object_of.
           cbn [mem.object_of mem.txn_postings]. unfold se, sd.
           rewrite lookup_insert_ne by congruence.
           now rewrite lookup_insert_eq.
      * rewrite Hpure. destruct at_cost; [now destruct Hpair|].
        reflexivity.
      * destruct at_price; [now destruct Hpair|]. discriminate.
  - unfold mem.bind, mem.new, mem.ret.
    set (ne := fresh (dom s1)).
    exists converted, ne, (<[ ne := mem.Entries [entry] ]> s1),
      (list_and at_cost at_price), [entry], [mem.value entry postings].
    assert (Hne_l : ne <> mem.txn_postings entry) by apply (fresh_ne s1 _ _ Hl1).
    assert (Hne_c : ne <> converted) by apply (fresh_ne s1 _ _ Hconv).
    split; [reflexivity|]. split; [|split; [|split; [|split]]].
    + now rewrite lookup_insert_ne.
    + now rewrite lookup_insert_eq.
    + constructor; [|constructor]. unfold mem.load.
      rewrite lookup_insert_ne by congruence. now rewrite Hl1.
    + exact Hpure.
    + reflexivity.
Qed.
End RunSplit.

Section SplitTheorem.
Context `{Collaborators}.

Lemma list_truth_and {A : Type} (a b : list A) :
  list_truth (list_and a b) = list_truth a && list_truth b.
Proof. destruct a, b; reflexivity. Qed.

(** C10, as amended: for every transaction all of whose postings carry a
    position.  The entries returned are the transaction itself when its
    postings are not both at cost and at price.  Otherwise they are, for
    each posting at price in order, the copy of the transaction with the
    narration followed by [ (Currency conversion)] and two postings, the
    posting at price and a posting of the negated weight on the same
    account; and last the copy of the transaction whose postings are those
    at cost, the simple ones and, for each posting at price, a posting of
    its weight on the same account.  The first component of the result is
    true as a condition in the second case only.  With the lists as objects
    of a store, the function returns, given turns enough for its loops; the
    lists it returns are new objects, which hold what is said above (and the
    input object itself in the first case); and every object of the store it
    was called in, the list of postings of the input first, holds what it
    held.  The last holds for every transaction, and also when the function
    raises. *)
Theorem split_currency_conversions_entries (entry : data.Transaction) :
  Forall has_position (data.txn_postings entry) ->
  let postings_simple := bucket_of simple (data.txn_postings entry) in
  let postings_at_price := bucket_of at_price (data.txn_postings entry) in
  let postings_at_cost := bucket_of at_cost (data.txn_postings entry) in
  let mixed := list_truth postings_at_cost && list_truth postings_at_price in
  let weight_posting (negated : bool) (posting_orig : data.Posting) :=
    let weight := get_posting_weight posting_orig in
    let simple_position :=
      position.mkPosition
        (position.mkLot (amount.currency weight) None None)
        (amount.number weight) in
    data.mkPosting None (data.posting_account posting_orig)
      (Some (if negated then Position_neg simple_position
             else simple_position))
      None None in
  let conversion posting_orig :=
    entry_replace entry [posting_orig; weight_posting true posting_orig]
      (Some (data.txn_narration entry +:+ " (Currency conversion)")) in
  let expected :=
    if mixed
    then (conversion <$> postings_at_price)
         ++ [entry_replace entry
               (postings_at_cost ++ postings_simple
                  ++ (weight_posting false <$> postings_at_price))
               None]
    else [entry] in
  (exists converted,
      split_currency_conversions entry = inr (converted, expected)
      /\ value_truth converted = mixed)
  /\ (forall (turns : nat) (s0 : mem.store) (l : mem.loc),
         s0 !! l = Some (mem.Postings (data.txn_postings entry)) ->
         length (data.txn_postings entry) <= turns ->
         exists converted new_entries s1 conversions entries,
           mem.split_currency_conversions turns (mem.object_of entry l) s0
           = Some (inr (converted, new_entries), s1)
           /\ kept s0 s1
           /\ (converted ∉ dom s0) /\ (new_entries ∉ dom s0)
           /\ s1 !! converted = Some (mem.Postings conversions)
           /\ list_truth conversions = mixed
           /\ s1 !! new_entries = Some (mem.Entries entries)
           /\ Forall2 (fun obj v => mem.load s1 obj = Some v) entries expected
           /\ (mixed = false -> entries = [mem.object_of entry l]))
  /\ (forall (turns : nat) (any : mem.Transaction) (s0 s1 : mem.store) out,
         mem.split_currency_conversions turns any s0 = Some (out, s1) ->
         kept s0 s1).
Proof.
  intros Hall ps pp pc mixed weight_posting conversion expected.
  pose proof (split_currency_conversions_run entry Hall) as Hpure.
  cbv zeta in Hpure. fold ps pp pc in Hpure.
  rewrite list_truth_and in Hpure. fold mixed in Hpure.
  change (currency_entry entry) with conversion in Hpure.
  change posting_pos with (weight_posting false) in Hpure.
  fold expected in Hpure.
  assert (Hkept : forall s0 : mem.store, kept s0 s0)
    by (intros s0 l _; reflexivity).
  split; [|split].
  - exists (VList (list_and pc pp)). split; [exact Hpure|].
    apply list_truth_and.
  - intros turns s0 l Hl Hlen.
    destruct (split_currency_conversions_refines turns (mem.object_of entry l)
                s0 (data.txn_postings entry) Hl Hall Hlen)
      as (converted & ne & s1 & conversions & entries & values
          & Hrun & Hc & Hne & Hload & Hval & Helse).
    rewrite value_object_of, Hpure in Hval.
    injection Hval as Hconv Hvalues. subst conversions values.
    destruct (keeps_split_currency_conversions s0 turns _ s0 _ _
                (Hkept s0) Hrun) as [Hs1 [Hc0 Hne0]].
    exists converted, ne, s1, (list_and pc pp), entries.
    rewrite list_truth_and in Helse |- *.
    repeat (split; [assumption|]). split; [reflexivity|].
    repeat (split; [assumption|]). exact Helse.
  - intros turns any s0 s1 out Hrun.
    now destruct (keeps_split_currency_conversions s0 turns any s0 _ _
                    (Hkept s0) Hrun).
Qed.
End SplitTheorem.

(** ** The printers *)

Lemma events_bind {A B : Type} (m : run A) (k : A -> run B) :
  events (m ≫= k) =
  events m ++ match outcome m with
              | inl _ => []
              | inr a => events (k a)
              end.
Proof.
  unfold mbind, run_bind. destruct (outcome m); simpl; [|reflexivity].
  now rewrite app_nil_r.
Qed.

Lemma outcome_bind {A B : Type} (m : run A) (k : A -> run B) :
  outcome (m ≫= k) =
  match outcome m with
  | inl e => inl e
  | inr a => outcome (k a)
  end.
Proof. unfold mbind, run_bind. now destruct (outcome m). Qed.

Lemma for_each_events {A : Type} (P : event -> Prop) (body : A -> run unit) l :
  (forall x, Forall P (events (body x))) ->
  Forall P (events (for_each l body)).
Proof.
  intros Hbody. induction l as [|x l IH]; simpl; [constructor|].
  rewrite events_bind. apply Forall_app. split; [apply Hbody|].
  destruct (outcome (body x)); [constructor|exact IH].
Qed.

Section PrinterProperties.
Context `{Collaborators}.

Lemma call_postings_by_type_found h r entry :
  h !! r = Some entry ->
  call_postings_by_type h (Some r) =
  Run [CallPostingsByType (Some r)] (postings_by_type entry).
Proof.
  intros Hr. unfold call_postings_by_type. simpl. rewrite Hr.
  reflexivity.
Qed.

(** C1, as amended: in the Ledger format, for a posting at cost of a
    transaction.  When all the postings of the transaction carry a
    position, the posting has no price and the transaction has a posting at
    price, the line is rendered with the price field [@ cost], from the cost
    of the lot.  When the transaction has no posting at price, whatever the
    positions of the other postings, a rendered line never has a
    synthesized price: its price field is the price of the posting itself,
    and empty without one; and the line is rendered whenever the posting
    has a price or all the postings carry a position. *)
Theorem Posting_price_field
    (h : heap) (r : data.ref) (entry : data.Transaction)
    (posting : data.Posting) (c : amount.Amount) :
  h !! r = Some entry ->
  data.posting_entry posting = Some r ->
  posting ∈ data.txn_postings entry ->
  lot_cost posting = Some c ->
  let line price_str :=
    pystr.rstrip
      (LedgerPrinter.posting_format (LedgerPrinter.flag_posting posting)
         (quote_currency (LedgerPrinter.strs posting).1)
         (quote_currency (LedgerPrinter.strs posting).2)
         (quote_currency price_str)) +:+ LF in
  let own_price :=
    match data.posting_price posting with
    | Some price => "@ " +:+ Amount_str price MAXDIGITS_PRINTER
    | None => ""
    end in
  (Forall has_position (data.txn_postings entry) ->
   data.posting_price posting = None ->
   bucket_of at_price (data.txn_postings entry) <> [] ->
   written (LedgerPrinter.Posting h posting)
   = inr (line ("@ " +:+ Amount_str c MAXDIGITS_PRINTER)))
  /\ (bucket_of at_price (data.txn_postings entry) = [] ->
      (forall text,
          written (LedgerPrinter.Posting h posting) = inr text ->
          text = line own_price)
      /\ (is_Some (data.posting_price posting)
          \/ Forall has_position (data.txn_postings entry) ->
          written (LedgerPrinter.Posting h posting) = inr (line own_price))).
Proof.
  intros Hr Hentry Hin Hc line own_price.
  assert (Hcost : bucket_of at_cost (data.txn_postings entry) <> []).
  { intros Hnil.
    assert (Hp : posting ∈ bucket_of at_cost (data.txn_postings entry)).
    { apply list_elem_of_filter. split; [|exact Hin].
      unfold classify. now rewrite Hc. }
    rewrite Hnil in Hp. now apply not_elem_of_nil in Hp. }
  unfold lot_cost in Hc.
  destruct (data.posting_position posting) as [pos|] eqn:Hpos;
    [simpl in Hc|discriminate].
  assert (Hnone :
    Forall has_position (data.txn_postings entry) ->
    data.posting_price posting = None ->
    written (LedgerPrinter.Posting h posting)
    = inr (line (if list_truth (bucket_of at_price (data.txn_postings entry))
                 then "@ " +:+ Amount_str c MAXDIGITS_PRINTER else ""))).
  { intros Hall Hprice. subst line. unfold LedgerPrinter.Posting.
    destruct (LedgerPrinter.strs posting) as [amount_str cost_str].
    rewrite Hprice, Hentry, (call_postings_by_type_found _ _ _ Hr).
    unfold postings_by_type. rewrite loop_classify by exact Hall.
    destruct (bucket_of at_cost (data.txn_postings entry)); [congruence|].
    destruct (bucket_of at_price (data.txn_postings entry));
      simpl; [reflexivity|].
    rewrite Hpos, Hc. reflexivity. }
  assert (Hraise :
    ~ Forall has_position (data.txn_postings entry) ->
    data.posting_price posting = None ->
    written (LedgerPrinter.Posting h posting) = inl AttributeError).
  { intros Hall Hprice. unfold LedgerPrinter.Posting.
    destruct (LedgerPrinter.strs posting) as [amount_str cost_str].
    rewrite Hprice, Hentry, (call_postings_by_type_found _ _ _ Hr).
    unfold postings_by_type. now rewrite loop_no_position. }
  assert (Hsome :
    forall price, data.posting_price posting = Some price ->
    written (LedgerPrinter.Posting h posting)
    = inr (line ("@ " +:+ Amount_str price MAXDIGITS_PRINTER))).
  { intros price Hprice. subst line. unfold LedgerPrinter.Posting.
    destruct (LedgerPrinter.strs posting) as [amount_str cost_str].
    rewrite Hprice. reflexivity. }
  assert (Hdec : {Forall has_position (data.txn_postings entry)}
                 + {~ Forall has_position (data.txn_postings entry)}).
  { apply Forall_dec. intros x. unfold has_position.
    destruct (data.posting_position x);
      [left; eauto|right; intros [? ?]; discriminate]. }
  split.
  - intros Hall Hprice Hpp. rewrite (Hnone Hall Hprice).
    destruct (bucket_of at_price (data.txn_postings entry)); [congruence|].
    reflexivity.
  - intros Hpp. subst own_price.
    destruct (data.posting_price posting) as [price|] eqn:Hprice.
    + rewrite (Hsome price eq_refl). split; [|reflexivity].
      now intros text [= <-].
    + split.
      * intros text. destruct Hdec as [Hall|Hall].
        -- rewrite (Hnone Hall eq_refl), Hpp. now intros [= <-].
        -- rewrite (Hraise Hall eq_refl). discriminate.
      * intros [[price' Hsome']|Hall]; [discriminate|].
        now rewrite (Hnone Hall eq_refl), Hpp.
Qed.

Lemma Ledger_Posting_no_fill h posting :
  Forall (fun ev => ~ is_fill ev) (events (LedgerPrinter.Posting h posting)).
Proof.
  unfold LedgerPrinter.Posting, call_postings_by_type.
  destruct (LedgerPrinter.strs posting) as [amount_str cost_str].
  destruct (data.posting_price posting) as [price|]; simpl.
  { repeat constructor; simpl; tauto. }
  destruct (data.posting_entry posting ≫= (h !!.)) as [entry|]; simpl;
    [|repeat constructor; simpl; tauto].
  destruct (postings_by_type entry) as [e|[[ps pp] pc]]; simpl;
    [repeat constructor; simpl; tauto|].
  destruct (list_truth pp && list_truth pc); simpl;
    [|repeat constructor; simpl; tauto].
  destruct (data.posting_position posting) as [pos|]; simpl;
    [|repeat constructor; simpl; tauto].
  destruct (position.cost (position.lot pos)); simpl;
    repeat constructor; simpl; tauto.
Qed.

Lemma HLedger_Posting_no_fill h posting :
  Forall (fun ev => ~ is_fill ev) (events (HLedgerPrinter.Posting h posting)).
Proof.
  unfold HLedgerPrinter.Posting.
  destruct (HLedgerPrinter.strs posting) as [amount_str cost_str]; simpl.
  repeat constructor; simpl; tauto.
Qed.

Lemma Transaction_events cls h entry :
  let filled := fill_residual_posting entry ROUNDING_ACCOUNT in
  exists header,
    events (LedgerPrinter.Transaction cls h entry) =
    CallFillResidual entry ROUNDING_ACCOUNT :: Write header
      :: events (for_each (data.txn_postings filled) (cls_Posting cls h)).
Proof.
  intros filled. unfold LedgerPrinter.Transaction.
  eexists. unfold LedgerPrinter.call_fill_residual_posting.
  unfold mbind, run_bind, mret, run_ret, emit, write. simpl.
  reflexivity.
Qed.

(** C9: rendering a Balance directive gives the empty text, with both
    printers. *)
Theorem Balance_rendering (h : heap) (entry : data.Balance) :
  outcome (LedgerPrinter.call LedgerPrinter.cls h (data.DBalance entry))
    = inr ""
  /\ outcome (HLedgerPrinter.call h (data.DBalance entry)) = inr "".
Proof. split; reflexivity. Qed.

(** The HLedger posting line does not depend on the price. *)
Lemma HLedger_Posting_ignores_price h posting price :
  HLedgerPrinter.Posting h posting =
  HLedgerPrinter.Posting h
    (data.mkPosting (data.posting_entry posting)
       (data.posting_account posting) (data.posting_position posting)
       price (data.posting_flag posting)).
Proof. reflexivity. Qed.
End PrinterProperties.

Lemma spaces_repeat n :
  pystr.spaces n = string_of_list_ascii (repeat " "%char n).
Proof. induction n as [|n IH]; simpl; [reflexivity|]. now rewrite IH. Qed.

Lemma join_fold_right (sep : string) (f : string -> string) x l :
  pystr.join sep (f <$> x :: l)
  = f x +:+ fold_right (fun y rest => sep +:+ f y +:+ rest) "" l.
Proof.
  revert x. induction l as [|y l IH]; intros x.
  - simpl. now rewrite str_app_nil_r.
  - change (pystr.join sep (f <$> x :: y :: l))
      with (f x +:+ sep +:+ pystr.join sep (f <$> y :: l)).
    now rewrite IH.
Qed.

(** C8: the Ledger printer renders an Open directive as the line
    [account], the account padded with spaces to 47 characters, and, when
    the list of currencies is not empty, one line [assert] with a clause
    [commodity == "..."] for each currency, in order, a [|] before each
    clause but the first; the HLedger printer renders it as the one comment
    line [;; Open: date close account], whatever the currencies.  On the
    opening of [Assets:Cash] for USD and EUR the texts are as shown; a single
    currency gives one clause and no [|], no currency gives no second
    line. *)
Theorem Open_rendering :
  let nl := String "010"%char "" in
  let q := String "034"%char "" in
  let clause ccy := "commodity == " +:+ q +:+ ccy +:+ q in
  (forall (C : Collaborators) (h : heap) (entry : data.Open),
      outcome (LedgerPrinter.call LedgerPrinter.cls h (data.DOpen entry)) =
        inr ("account " +:+ data.open_account entry
             +:+ string_of_list_ascii
                   (repeat " "%char
                      (47 - String.length (data.open_account entry)))
             +:+ nl
             +:+ match data.open_currencies entry with
                 | Some (currency :: currencies) =>
                     "  assert " +:+ clause currency
                     +:+ fold_right
                           (fun ccy rest => " | " +:+ clause ccy +:+ rest)
                           "" currencies
                     +:+ nl
                 | _ => ""
                 end)
      /\ forall currencies,
           outcome (HLedgerPrinter.call h
                      (data.DOpen (data.mkOpen (data.open_date entry)
                                     (data.open_account entry) currencies)))
           = inr (";; Open: " +:+ date_format (data.open_date entry)
                  +:+ " close " +:+ data.open_account entry +:+ nl))
  /\ outcome (@LedgerPrinter.call demo.collaborators
                (@LedgerPrinter.cls demo.collaborators) demo.objects
                (data.DOpen demo.open_account))
     = inr ("account Assets:Cash                                    "
            +:+ nl +:+ "  assert commodity == " +:+ q +:+ "USD" +:+ q
            +:+ " | commodity == " +:+ q +:+ "EUR" +:+ q +:+ nl)
  /\ outcome (@LedgerPrinter.call demo.collaborators
                (@LedgerPrinter.cls demo.collaborators) demo.objects
                (data.DOpen (data.mkOpen (mkDate 2014 1 1) "Assets:Cash"
                               (Some ["CAD"]))))
     = inr ("account Assets:Cash                                    "
            +:+ nl +:+ "  assert commodity == " +:+ q +:+ "CAD" +:+ q +:+ nl)
  /\ outcome (@LedgerPrinter.call demo.collaborators
                (@LedgerPrinter.cls demo.collaborators) demo.objects
                (data.DOpen (data.mkOpen (mkDate 2014 1 1) "Assets:Cash"
                               (Some []))))
     = inr ("account Assets:Cash                                    "
            +:+ nl)
  /\ outcome (@LedgerPrinter.call demo.collaborators
                (@LedgerPrinter.cls demo.collaborators) demo.objects
                (data.DOpen (data.mkOpen (mkDate 2014 1 1) "Assets:Cash"
                               None)))
     = inr ("account Assets:Cash                                    "
            +:+ nl)
  /\ outcome (@HLedgerPrinter.call demo.collaborators demo.objects
                (data.DOpen demo.open_account))
     = inr (";; Open: 2014/01/01 close Assets:Cash" +:+ nl).
Proof.
  intros nl q clause. split; [|split; [|split; [|split; [|split]]]].
  - intros C h entry. split.
    + unfold LedgerPrinter.call, written. simpl. unfold LedgerPrinter.Open.
      unfold pystr.ljust. rewrite spaces_repeat.
      destruct (data.open_currencies entry) as [[|currency currencies]|];
        cbn [default list_truth].
      * simpl. rewrite str_app_nil_r, str_app_assoc. reflexivity.
      * unfold id, mbind, run_bind, write, emit.
        cbn [list_truth outcome events getvalue app].
        rewrite (join_fold_right " | " LedgerPrinter.commodity_clause).
        rewrite str_app_nil_r.
        repeat (rewrite str_app_assoc; simpl).
        unfold LedgerPrinter.commodity_clause.
        repeat f_equal.
      * simpl. rewrite str_app_nil_r, str_app_assoc. reflexivity.
    + intros currencies.
      unfold HLedgerPrinter.call, LedgerPrinter.call, written. simpl.
      now rewrite str_app_nil_r.
  - vm_compute. reflexivity.
  - vm_compute. reflexivity.
  - vm_compute. reflexivity.
  - vm_compute. reflexivity.
  - vm_compute. reflexivity.
Qed.

(** ** The currency quoter *)

(** C5: [quote_currency] puts between double quotes each delimited token
    of the pattern that has a digit or a period, leaves the other tokens bare
    and keeps every other character; ["10 USD"] is unchanged and the token of
    ["5 B2C3"] is quoted. *)
Theorem quote_currency_token_rule :
  (forall s out, quoted None s out <-> out = quote_currency s)
  /\ quote_currency "10 USD" = "10 USD"
  /\ quote_currency "5 B2C3"
     = "5 " +:+ String dquote ("B2C3" +:+ String dquote "").
Proof.
  split; [|split].
  - intros s out. split.
    + intros Hq. apply (quoted_unique None s out Hq). apply sub_quoted.
    + intros ->. apply sub_quoted.
  - reflexivity.
  - reflexivity.
Qed.

(** C6 fails on ["5 B2C3"]: the second pass quotes the token again. *)
Lemma quote_currency_not_idempotent :
  quote_currency (quote_currency "5 B2C3") <> quote_currency "5 B2C3".
Proof. vm_compute. discriminate. Qed.

(** C6, as amended: quoting twice gives the same as quoting once exactly
    for the texts that quoting leaves unchanged. *)
Theorem quote_currency_twice (s : string) :
  quote_currency (quote_currency s) = quote_currency s
  <-> quote_currency s = s.
Proof.
  split.
  - intros Htwice. destruct (string_dec (quote_currency s) s) as [Heq|Hne];
      [exact Heq|].
    pose proof (sub_grows_again s None None Hne) as Hlt.
    unfold quote_currency in Htwice. rewrite Htwice in Hlt. lia.
  - intros Heq. now rewrite !Heq.
Qed.

(** ** The sample ledgers *)

(** C2 fails on a transaction with a posting without a position: the
    classifier raises. *)
Lemma postings_by_type_without_position :
  postings_by_type demo.buy_stock_incomplete = inl AttributeError
  /\ ~ exists buckets, postings_by_type demo.buy_stock_incomplete = inr buckets.
Proof.
  split; [reflexivity|]. intros [buckets Hb]. vm_compute in Hb. discriminate.
Qed.

(** The classifier on the stock purchase: one posting in each bucket. *)
Lemma postings_by_type_partition_witness :
  Forall has_position (data.txn_postings demo.buy_stock)
  /\ postings_by_type demo.buy_stock
     = inr ([demo.commission 1], [demo.cash 1], [demo.goog 1]).
Proof.
  assert (Hall : Forall has_position (data.txn_postings demo.buy_stock))
    by (repeat constructor; eexists; reflexivity).
  split; [exact Hall|].
  exact (proj1 (postings_by_type_partition demo.buy_stock Hall)).
Defined.

(** C1 fails on the posting at cost of a transaction that also has a posting
    at price and a posting without a position: no line is rendered. *)
Lemma Posting_price_field_without_position :
  classify (demo.goog 2) = at_cost
  /\ data.posting_price (demo.goog 2) = None
  /\ classify (demo.cash 2) = at_price
  /\ written (@LedgerPrinter.Posting demo.collaborators demo.objects
                (demo.goog 2))
     = inl AttributeError.
Proof. repeat split. Qed.

(** The line of the posting at cost: with a posting at price in the
    transaction (the stock purchase), without one (the transfer), and with
    a price of its own beside a posting without a position (the gift). *)
Lemma Posting_price_field_witness :
  written (@LedgerPrinter.Posting demo.collaborators demo.objects (demo.goog 1))
  = inr ("  " +:+ pystr.ljust 64 "Assets:Investment"
         +:+ " " +:+ pystr.rjust 16 "5 GOOG"
         +:+ " " +:+ pystr.rjust 16 "{520.0 USD}"
         +:+ " " +:+ pystr.rjust 16 "@ 520.0 USD" +:+ LF)
  /\ written (@LedgerPrinter.Posting demo.collaborators demo.objects (demo.goog 5))
     = inr ("  " +:+ pystr.ljust 64 "Assets:Investment"
            +:+ " " +:+ pystr.rjust 16 "5 GOOG"
            +:+ " " +:+ pystr.rjust 16 "{520.0 USD}" +:+ LF)
  /\ written (@LedgerPrinter.Posting demo.collaborators demo.objects_with_gift
                (demo.goog_priced 6))
     = inr ("  " +:+ pystr.ljust 64 "Assets:Investment"
            +:+ " " +:+ pystr.rjust 16 "5 GOOG"
            +:+ " " +:+ pystr.rjust 16 "{520.0 USD}"
            +:+ " " +:+ pystr.rjust 16 "@ 530.0 USD" +:+ LF).
Proof.
  split; [|split].
  - destruct (@Posting_price_field demo.collaborators demo.objects 1
                demo.buy_stock (demo.goog 1) (demo.usd 5200 (-1)))
      as [Hprice _].
    + reflexivity.
    + reflexivity.
    + apply list_elem_of_here.
    + reflexivity.
    + apply Hprice; [|reflexivity|vm_compute; discriminate].
      repeat constructor; eexists; reflexivity.
  - destruct (@Posting_price_field demo.collaborators demo.objects 5
                demo.hold (demo.goog 5) (demo.usd 5200 (-1)))
      as [_ Hnone].
    + reflexivity.
    + reflexivity.
    + apply list_elem_of_here.
    + reflexivity.
    + apply Hnone; [reflexivity|]. right.
      repeat constructor; eexists; reflexivity.
  - destruct (@Posting_price_field demo.collaborators demo.objects_with_gift 6
                demo.gift (demo.goog_priced 6) (demo.usd 5200 (-1)))
      as [_ Hnone].
    + reflexivity.
    + reflexivity.
    + apply list_elem_of_here.
    + reflexivity.
    + apply Hnone; [reflexivity|]. left. eexists. reflexivity.
Defined.

(** The scenario of the specification: the line of the posting at cost
    carries the price [@ 520.0 USD] because a posting at price is in the same
    transaction. *)
Lemma buy_stock_rendering :
  outcome (@LedgerPrinter.call demo.collaborators
             (@LedgerPrinter.cls demo.collaborators) demo.objects
             (data.DTransaction demo.buy_stock))
  = inr ("2014/11/02 * Buy stock" +:+ LF
         +:+ "  " +:+ pystr.ljust 64 "Assets:Investment"
         +:+ " " +:+ pystr.rjust 16 "5 GOOG"
         +:+ " " +:+ pystr.rjust 16 "{520.0 USD}"
         +:+ " " +:+ pystr.rjust 16 "@ 520.0 USD" +:+ LF
         +:+ "  " +:+ pystr.ljust 64 "Expenses:Commissions"
         +:+ " " +:+ pystr.rjust 16 "9.95 USD" +:+ LF
         +:+ "  " +:+ pystr.ljust 64 "Assets:Cash"
         +:+ " " +:+ pystr.rjust 16 "-2939.46 CAD"
         +:+ " " +:+ pystr.rjust 16 ""
         +:+ " " +:+ pystr.rjust 16 "@ 0.8879 USD" +:+ LF).
Proof. vm_compute. reflexivity. Qed.

(** C3 fails on a transaction with a tag and a link: their comments are
    put inside the header line, after the flag, not on lines of their own. *)
Theorem Transaction_tags_in_header :
  outcome (@LedgerPrinter.call demo.collaborators
             (@LedgerPrinter.cls demo.collaborators) demo.objects
             (data.DTransaction demo.lunch))
  = inr ("2014/11/03 * ;; Tag: #trip ;; Link: ^receipt Cafe | Lunch" +:+ LF
         +:+ "  " +:+ pystr.ljust 64 "Expenses:Commissions"
         +:+ " " +:+ pystr.rjust 16 "9.95 USD" +:+ LF).
Proof. vm_compute. reflexivity. Qed.

(** C4 fails on a posting with a price and no cost: the HLedger line shows
    the amount only, the price is computed and not written. *)
Theorem HLedger_Posting_drops_price :
  data.posting_price (demo.cash 1) = Some (demo.usd 8879 (-4))
  /\ written (@HLedgerPrinter.Posting demo.collaborators demo.objects
                (demo.cash 1))
     = inr ("  " +:+ pystr.ljust 64 "Assets:Cash"
            +:+ " " +:+ pystr.rjust 16 "-2939.46 CAD" +:+ LF).
Proof. split; vm_compute; reflexivity. Qed.

(** C10 fails on a transaction with a posting without a position: the
    function raises. *)
Lemma split_currency_conversions_without_position :
  @split_currency_conversions demo.collaborators demo.buy_stock_incomplete
  = inl AttributeError.
Proof. reflexivity. Qed.

(** On a transaction with one simple posting the first component is the
    empty list. *)
Lemma split_currency_conversions_fees :
  @split_currency_conversions demo.collaborators demo.fees
  = inr (VList [], [demo.fees]).
Proof. reflexivity. Qed.

(** The stock purchase is split in two entries: the conversion of the
    Canadian dollars, and the purchase paid in US dollars.  In a store that
    holds the list of its postings, the list is left as it was. *)
Lemma split_currency_conversions_entries_witness :
  Forall has_position (data.txn_postings demo.buy_stock)
  /\ (exists converted,
         @split_currency_conversions demo.collaborators demo.buy_stock
         = inr (converted,
                [demo.buy_stock_conversion; demo.buy_stock_converted])
         /\ value_truth converted = true)
  /\ exists converted new_entries s1 entries,
       @mem.split_currency_conversions demo.collaborators 3
         (mem.object_of demo.buy_stock 1)
         {[ 1%positive := mem.Postings (data.txn_postings demo.buy_stock) ]}
       = Some (inr (converted, new_entries), s1)
       /\ s1 !! 1%positive
          = Some (mem.Postings (data.txn_postings demo.buy_stock))
       /\ s1 !! new_entries = Some (mem.Entries entries)
       /\ Forall2 (fun obj v => mem.load s1 obj = Some v) entries
            [demo.buy_stock_conversion; demo.buy_stock_converted].
Proof.
  assert (Hall : Forall has_position (data.txn_postings demo.buy_stock))
    by (repeat constructor; eexists; reflexivity).
  destruct (@split_currency_conversions_entries demo.collaborators
              demo.buy_stock Hall) as (Hpure & Hstore & _).
  split; [exact Hall|]. split; [exact Hpure|].
  destruct (Hstore 3
              {[ 1%positive := mem.Postings (data.txn_postings demo.buy_stock) ]}
              1%positive)
    as (converted & new_entries & s1 & conversions & entries
        & Hrun & Hkept & _ & _ & _ & _ & Hne & Hload & _).
  - reflexivity.
  - simpl. lia.
  - exists converted, new_entries, s1, entries.
    split; [exact Hrun|]. split; [|split; [exact Hne|exact Hload]].
    rewrite (Hkept 1%positive); [reflexivity|].
    apply elem_of_dom. eexists. reflexivity.
Defined.

(** * Further properties of the code *)

(** ** The currency quoter *)

Lemma without_dquote_app s1 s2 :
  without_dquote (s1 +:+ s2) = without_dquote s1 +:+ without_dquote s2.
Proof.
  induction s1 as [|c s1 IH]; simpl; [reflexivity|].
  destruct (Ascii.eqb c dquote); simpl; now rewrite IH.
Qed.

Lemma without_dquote_quote t : without_dquote (quote t) = without_dquote t.
Proof.
  unfold quote. destruct (re.search_digit_or_period t); [|reflexivity].
  change (String dquote (t +:+ String dquote ""))
    with (String dquote "" +:+ (t +:+ String dquote "")).
  rewrite !without_dquote_app. simpl. now rewrite str_app_nil_r.
Qed.

Lemma sub_without_dquote : forall s before,
  without_dquote (sub before s) = without_dquote s.
Proof.
  intros s. by_length_induction s. intros before.
  destruct s as [|c s]; [now rewrite sub_nil|].
  rewrite sub_cons.
  destruct (re.match_at before (String c s)) as [[tok rest]|] eqn:E.
  - destruct (match_at_sound _ _ _ _ E) as [Hs [Htok _]].
    assert (Hlt : String.length rest < String.length (String c s))
      by (apply token_length in Htok; rewrite Hs, str_length_app; lia).
    rewrite Hs, !without_dquote_app, without_dquote_quote.
    now rewrite (IH _ Hlt rest eq_refl).
  - assert (Hlt : String.length s < String.length (String c s))
      by (simpl; lia).
    simpl. now rewrite (IH _ Hlt s eq_refl).
Qed.

(** X1: the quoter only inserts double quotes: without the double quotes
    the output is the input. *)
Theorem quote_currency_only_adds_quotes (s : string) :
  without_dquote (quote_currency s) = without_dquote s.
Proof. unfold quote_currency. apply sub_without_dquote. Qed.

Lemma sub_no_upper : forall s before,
  pystr.all (fun c => negb (re.is_upper c)) s = true -> sub before s = s.
Proof.
  induction s as [|c s IH]; intros before Hall; [apply sub_nil|].
  simpl in Hall. apply andb_true_iff in Hall as [Hc Hall].
  apply negb_true_iff in Hc.
  rewrite sub_cons. simpl. rewrite Hc, andb_false_r.
  now rewrite IH.
Qed.

(** X2: a text without an uppercase letter (a number, a date) is
    unchanged. *)
Theorem quote_currency_no_upper (s : string) :
  pystr.all (fun c => negb (re.is_upper c)) s = true ->
  quote_currency s = s.
Proof. intros Hall. unfold quote_currency. now apply sub_no_upper. Qed.

Lemma quote_currency_no_upper_witness :
  quote_currency "-2939.46 @ 0.8879" = "-2939.46 @ 0.8879".
Proof. apply quote_currency_no_upper. reflexivity. Defined.

Lemma search_digit_or_period_app s1 s2 :
  re.search_digit_or_period (s1 +:+ s2)
  = re.search_digit_or_period s1 || re.search_digit_or_period s2.
Proof.
  induction s1 as [|c s1 IH]; simpl; [reflexivity|].
  now rewrite IH, orb_assoc.
Qed.

Lemma sub_no_digit : forall s before,
  re.search_digit_or_period s = false -> sub before s = s.
Proof.
  intros s. by_length_induction s. intros before Hs.
  destruct s as [|c s]; [apply sub_nil|].
  rewrite sub_cons.
  destruct (re.match_at before (String c s)) as [[tok rest]|] eqn:E.
  - destruct (match_at_sound _ _ _ _ E) as [Heq [Htok _]].
    assert (Hlt : String.length rest < String.length (String c s))
      by (apply token_length in Htok; rewrite Heq, str_length_app; lia).
    rewrite Heq, search_digit_or_period_app in Hs.
    apply orb_false_iff in Hs as [Ht Hr].
    unfold quote. rewrite Ht, Heq.
    now rewrite (IH _ Hlt rest eq_refl _ Hr).
  - assert (Hlt : String.length s < String.length (String c s))
      by (simpl; lia).
    simpl in Hs. apply orb_false_iff in Hs as [_ Hs].
    now rewrite (IH _ Hlt s eq_refl _ Hs).
Qed.

(** X3: a text without a digit and without a period is unchanged:
    whatever tokens it has stay bare. *)
Theorem quote_currency_no_digit (s : string) :
  re.search_digit_or_period s = false -> quote_currency s = s.
Proof. intros Hs. unfold quote_currency. now apply sub_no_digit. Qed.

Lemma quote_currency_no_digit_witness :
  quote_currency "USD and CAD, EUR-X" = "USD and CAD, EUR-X".
Proof. apply quote_currency_no_digit. reflexivity. Defined.

(** A character that is neither of the class nor of a word cuts the text
    for the pattern. *)
Lemma match_tail_separator c y : forall x n,
  re.is_class c = false -> re.is_word c = false ->
  re.match_tail n (x +:+ String c y)
  = match re.match_tail n x with
    | Some (t, r) => Some (t, r +:+ String c y)
    | None => None
    end.
Proof.
  induction x as [|a x IH]; intros n Hc Hw; simpl.
  - assert (Hl : re.is_last c = false).
    { destruct (re.is_last c) eqn:Hl; [|reflexivity].
      apply is_last_class in Hl. congruence. }
    rewrite Hl, Hc. simpl. now destruct n.
  - assert (Hb : re.word_boundary (Some a) (pystr.head (x +:+ String c y))
                 = re.word_boundary (Some a) (pystr.head x)).
    { destruct x; simpl; [|reflexivity].
      unfold re.word_boundary. simpl. now rewrite Hw. }
    rewrite Hb.
    assert (Hlast :
      (if re.is_last a && re.word_boundary (Some a) (pystr.head x)
       then Some (String a "", x +:+ String c y) else None)
      = match (if re.is_last a && re.word_boundary (Some a) (pystr.head x)
               then Some (String a "", x) else None) with
        | Some (t, r) => Some (t, r +:+ String c y)
        | None => None
        end)
      by now destruct (_ && _).
    destruct n as [|n]; [exact Hlast|].
    destruct (re.is_class a); [|exact Hlast].
    rewrite (IH n Hc Hw).
    destruct (re.match_tail n x) as [[t r]|]; [reflexivity|exact Hlast].
Qed.

Lemma match_at_separator before c y x :
  re.is_class c = false -> re.is_word c = false -> x <> "" ->
  re.match_at before (x +:+ String c y)
  = match re.match_at before x with
    | Some (t, r) => Some (t, r +:+ String c y)
    | None => None
    end.
Proof.
  intros Hc Hw Hx. destruct x as [|a x]; [congruence|]. simpl.
  destruct (re.word_boundary before (Some a) && re.is_upper a); [|reflexivity].
  rewrite (match_tail_separator c y x 10 Hc Hw).
  now destruct (re.match_tail 10 x) as [[t r]|].
Qed.

Lemma sub_before_word b1 b2 s :
  re.word b1 = re.word b2 -> sub b1 s = sub b2 s.
Proof.
  intros Hb. destruct s as [|a s]; [now rewrite !sub_nil|].
  rewrite !sub_cons.
  assert (Hm : re.match_at b1 (String a s) = re.match_at b2 (String a s)).
  { simpl. unfold re.word_boundary. now rewrite Hb. }
  rewrite Hm.
  destruct (re.match_at b2 (String a s)) as [[tok rest]|] eqn:E; [|reflexivity].
  destruct (match_at_sound _ _ _ _ E) as [_ [Htok _]].
  now rewrite (token_last b1 tok Htok), (token_last b2 tok Htok).
Qed.

Lemma sub_separator c y : forall x before,
  re.is_class c = false -> re.is_word c = false ->
  sub before (x +:+ String c y) = sub before x +:+ String c (sub None y).
Proof.
  intros x. by_length_induction x. intros before Hc Hw.
  destruct x as [|a x].
  - simpl. rewrite sub_nil, sub_cons. simpl.
    assert (Hu : re.is_upper c = false).
    { destruct (re.is_upper c) eqn:Hu; [|reflexivity].
      apply is_upper_last, is_last_class in Hu. congruence. }
    rewrite Hu, andb_false_r. simpl. f_equal.
    apply sub_before_word. simpl. exact Hw.
  - change (String a x +:+ String c y) with (String a (x +:+ String c y)).
    rewrite !sub_cons.
    change (String a (x +:+ String c y)) with (String a x +:+ String c y).
    rewrite (match_at_separator before c y (String a x) Hc Hw) by discriminate.
    destruct (re.match_at before (String a x)) as [[tok rest]|] eqn:E.
    + destruct (match_at_sound _ _ _ _ E) as [Hs [Htok _]].
      assert (Hlt : String.length rest < String.length (String a x))
        by (apply token_length in Htok; rewrite Hs, str_length_app; lia).
      rewrite (IH _ Hlt rest eq_refl _ Hc Hw). now rewrite str_app_assoc.
    + assert (Hlt : String.length x < String.length (String a x))
        by (simpl; lia).
      simpl. now rewrite (IH _ Hlt x eq_refl _ Hc Hw).
Qed.

(** X4: the quoter works field by field: around a character that is
    neither of the class of the pattern nor of a word (a space, a line feed,
    [@], a brace), quoting the whole is quoting the two sides. *)
Theorem quote_currency_separator (c : ascii) (x y : string) :
  re.is_class c = false -> re.is_word c = false ->
  quote_currency (x +:+ String c y)
  = quote_currency x +:+ String c (quote_currency y).
Proof. intros Hc Hw. unfold quote_currency. now apply sub_separator. Qed.

Lemma quote_currency_separator_witness :
  quote_currency ("5 B2C3" +:+ String "@" " 1.5 USD")
  = quote_currency "5 B2C3" +:+ String "@" (quote_currency " 1.5 USD").
Proof. apply quote_currency_separator; reflexivity. Defined.

(** X5: a text that is one token of the pattern is quoted as [quote]
    says: wrapped when it has a digit or a period, bare otherwise. *)
Theorem quote_currency_token (t : string) :
  is_token t -> quote_currency t = quote t.
Proof.
  intros Ht.
  assert (Hat : token_at None t "").
  { split; [exact Ht|].
    destruct Ht as (a & mid & z & -> & Ha & _ & _ & Hz). split; simpl.
    - unfold re.word_boundary. simpl.
      now rewrite (is_last_word _ (is_upper_last _ Ha)).
    - rewrite last_app_char. unfold re.word_boundary. simpl.
      now rewrite (is_last_word _ Hz), xorb_false_r. }
  destruct (match_at_complete None (t +:+ "") t "" Hat eq_refl)
    as (t' & r' & E & Hl).
  rewrite str_app_nil_r in E.
  destruct (match_at_sound _ _ _ _ E) as [Hs _].
  assert (Hlen : String.length t = String.length t' + String.length r')
    by (rewrite Hs at 1; apply str_length_app).
  assert (r' = "") as -> by (destruct r'; [reflexivity|simpl in Hlen; lia]).
  rewrite str_app_nil_r in Hs. subst t'.
  unfold quote_currency. destruct Ht as (a & mid & z & -> & _).
  rewrite sub_cons, E, sub_nil. apply str_app_nil_r.
Qed.

Lemma quote_currency_token_witness :
  quote_currency "VEUR.L" = String dquote ("VEUR.L" +:+ String dquote "").
Proof.
  apply (quote_currency_token "VEUR.L").
  exists "V"%char, "EUR.", "L"%char. repeat split; simpl; lia.
Defined.

(** ** The posting classifier and the splitting of conversions *)

Lemma has_position_all_dec (postings : list data.Posting) :
  {Forall has_position postings} + {~ Forall has_position postings}.
Proof.
  apply Forall_dec. intros posting. unfold has_position.
  destruct (data.posting_position posting);
    [left; eauto|right; intros [? ?]; discriminate].
Qed.

Lemma postings_by_type_error entry e :
  postings_by_type entry = inl e ->
  e = AttributeError /\ ~ Forall has_position (data.txn_postings entry).
Proof.
  unfold postings_by_type. intros Hraise.
  destruct (has_position_all_dec (data.txn_postings entry)) as [Hall|Hall].
  - rewrite loop_classify in Hraise by exact Hall. discriminate.
  - rewrite loop_no_position in Hraise by exact Hall.
    injection Hraise as <-. auto.
Qed.

Lemma postings_by_type_buckets entry buckets :
  postings_by_type entry = inr buckets ->
  Forall has_position (data.txn_postings entry)
  /\ buckets = (bucket_of simple (data.txn_postings entry),
                bucket_of at_price (data.txn_postings entry),
                bucket_of at_cost (data.txn_postings entry)).
Proof.
  unfold postings_by_type. intros Hret.
  destruct (has_position_all_dec (data.txn_postings entry)) as [Hall|Hall].
  - rewrite loop_classify in Hret by exact Hall. simpl in Hret.
    injection Hret as <-. auto.
  - rewrite loop_no_position in Hret by exact Hall. discriminate.
Qed.

Lemma bucket_nil b postings :
  bucket_of b postings = [] <-> b ∉ (classify <$> postings).
Proof.
  unfold bucket_of. induction postings as [|x l IH]; simpl.
  - split; [intros _; apply not_elem_of_nil|reflexivity].
  - rewrite filter_cons, not_elem_of_cons. destruct (decide (classify x = b)) as [Hx|Hx].
    + split; [discriminate|]. intros [Hne _]. congruence.
    + rewrite IH. split; [intros Hl; split; [congruence|exact Hl]|tauto].
Qed.

Section SplitFurther.
Context `{Collaborators}.

(** X6: the classifier, and with it the splitting function, raise
    [AttributeError] exactly when a posting of the transaction has no
    position; they raise nothing else. *)
Theorem classifier_raises_without_position (entry : data.Transaction) :
  (forall e, postings_by_type entry = inl e <->
             e = AttributeError
             /\ ~ Forall has_position (data.txn_postings entry))
  /\ (forall e, split_currency_conversions entry = inl e <->
                e = AttributeError
                /\ ~ Forall has_position (data.txn_postings entry)).
Proof.
  assert (Hcls : forall e, postings_by_type entry = inl e <->
             e = AttributeError
             /\ ~ Forall has_position (data.txn_postings entry)).
  { intros e. split; [apply postings_by_type_error|].
    intros [-> Hall]. unfold postings_by_type. now rewrite loop_no_position. }
  split; [exact Hcls|].
  intros e. rewrite <- Hcls. unfold split_currency_conversions.
  destruct (postings_by_type entry) as [e'|[[ps pp] pc]].
  - split; intros [= ->]; reflexivity.
  - split; [|discriminate].
    destruct (list_truth _); [|discriminate].
    destruct (fold_left _ _ _). discriminate.
Qed.

(** X7: the first component of the result of the splitting function is
    never a boolean: it is the value of [postings_at_cost and
    postings_at_price], the empty list when nothing is at cost and the list
    of the postings at price otherwise. *)
Theorem split_currency_conversions_converted
    (entry : data.Transaction) (converted : value)
    (entries : list data.Transaction) :
  split_currency_conversions entry = inr (converted, entries) ->
  converted =
    VList (match bucket_of at_cost (data.txn_postings entry) with
           | [] => []
           | _ :: _ => bucket_of at_price (data.txn_postings entry)
           end).
Proof.
  unfold split_currency_conversions.
  destruct (postings_by_type entry) as [e|[[ps pp] pc]] eqn:Hcls;
    [discriminate|].
  apply postings_by_type_buckets in Hcls as [_ [= -> -> ->]].
  unfold list_and.
  destruct (list_truth _).
  - destruct (fold_left _ _ _). intros [= <- _].
    now destruct (bucket_of at_cost _).
  - intros [= <- _]. now destruct (bucket_of at_cost _).
Qed.

Lemma classify_posting_pos posting_orig :
  classify (posting_pos posting_orig) = simple.
Proof. reflexivity. Qed.

(** X8: when [entry_replace] keeps the class of the postings it is given
    (it only sets their back-reference), no entry returned by a split has
    both postings at cost and postings at price: each conversion entry has
    its posting at price and nothing at cost, and the combined entry has
    nothing at price. *)
Theorem split_currency_conversions_unmixed
    (entry : data.Transaction) (converted : value)
    (entries : list data.Transaction) :
  (forall e postings narration,
      classify <$> data.txn_postings (entry_replace e postings narration)
      = classify <$> postings) ->
  (forall pos, position.cost (position.lot (Position_neg pos))
               = position.cost (position.lot pos)) ->
  split_currency_conversions entry = inr (converted, entries) ->
  value_truth converted = true ->
  Forall unmixed entries.
Proof.
  intros Hreplace Hneg. unfold split_currency_conversions.
  destruct (postings_by_type entry) as [e|[[ps pp] pc]] eqn:Hcls;
    [discriminate|].
  apply postings_by_type_buckets in Hcls as [_ [= -> -> ->]].
  destruct (list_truth _) eqn:Htruth.
  2:{ intros [= <- _]. simpl. congruence. }
  rewrite fold_split_step. simpl. intros [= _ <-] _.
  apply Forall_app. split.
  - apply Forall_fmap, Forall_forall. intros x Hx.
    apply list_elem_of_filter in Hx as [Hx _].
    left. apply bucket_nil. unfold currency_entry. rewrite Hreplace. simpl.
    rewrite !not_elem_of_cons. split; [congruence|].
    split; [|apply not_elem_of_nil].
    unfold classify, lot_cost, posting_neg, simple_position. simpl.
    rewrite Hneg. simpl. discriminate.
  - constructor; [|constructor].
    right. apply bucket_nil. rewrite Hreplace, !fmap_app.
    rewrite !not_elem_of_app. repeat split.
    + intros Hin. apply list_elem_of_fmap in Hin as (x & Hx & Hin).
      apply list_elem_of_filter in Hin as [Hin _]. congruence.
    + intros Hin. apply list_elem_of_fmap in Hin as (x & Hx & Hin).
      apply list_elem_of_filter in Hin as [Hin _]. congruence.
    + intros Hin. apply list_elem_of_fmap in Hin as (x & Hx & Hin).
      apply list_elem_of_fmap in Hin as (y & -> & _).
      rewrite classify_posting_pos in Hx. discriminate.
Qed.
End SplitFurther.

Lemma split_currency_conversions_converted_witness :
  exists entries,
    @split_currency_conversions demo.collaborators demo.buy_stock
    = inr (VList [demo.cash 1], entries).
Proof.
  destruct (@split_currency_conversions demo.collaborators demo.buy_stock)
    as [e|[converted entries]] eqn:Hsplit; [discriminate|].
  exists entries.
  now rewrite (@split_currency_conversions_converted demo.collaborators
                 demo.buy_stock converted entries Hsplit).
Defined.

Lemma split_currency_conversions_unmixed_witness :
  exists converted entries,
    @split_currency_conversions demo.collaborators demo.buy_stock
    = inr (converted, entries)
    /\ length entries = 2
    /\ Forall unmixed entries.
Proof.
  eexists _, _. split; [reflexivity|]. split; [reflexivity|].
  eapply (@split_currency_conversions_unmixed demo.collaborators
            demo.buy_stock).
  - reflexivity.
  - reflexivity.
  - reflexivity.
  - reflexivity.
Defined.

(** ** Stripping *)

Lemma all_isspace_spaces n : pystr.all pystr.isspace (pystr.spaces n) = true.
Proof. induction n as [|n IH]; [reflexivity|]. simpl. exact IH. Qed.

Lemma rstrip_all_isspace w :
  pystr.all pystr.isspace w = true -> pystr.rstrip w = "".
Proof.
  induction w as [|c w IH]; [reflexivity|]. simpl.
  intros Hall. apply andb_true_iff in Hall as [Hc Hw].
  now rewrite (IH Hw), Hc.
Qed.

Lemma rstrip_app_isspace s w :
  pystr.all pystr.isspace w = true ->
  pystr.rstrip (s +:+ w) = pystr.rstrip s.
Proof.
  intros Hw. induction s as [|c s IH]; simpl.
  - now apply rstrip_all_isspace.
  - now rewrite IH.
Qed.

Lemma rstrip_idem s : pystr.rstrip (pystr.rstrip s) = pystr.rstrip s.
Proof.
  induction s as [|c s IH]; [reflexivity|]. simpl.
  destruct (pystr.isspace c && pystr.is_empty (pystr.rstrip s)) eqn:E;
    [reflexivity|].
  simpl. now rewrite IH, E.
Qed.

(** ** The printers, further *)

Lemma classifier_calls_app evs1 evs2 :
  classifier_calls (evs1 ++ evs2)
  = classifier_calls evs1 + classifier_calls evs2.
Proof.
  induction evs1 as [|ev evs1 IH]; [reflexivity|].
  destruct ev; simpl; now rewrite IH.
Qed.

Lemma for_each_outcome {A : Type} (body : A -> run unit) l :
  Forall (fun x => outcome (body x) = inr tt) l ->
  outcome (for_each l body) = inr tt.
Proof.
  induction 1 as [|x l Hx _ IH]; [reflexivity|].
  simpl. now rewrite outcome_bind, Hx.
Qed.

Lemma written_ok {A : Type} (r : run A) a :
  outcome r = inr a -> written r = inr (getvalue (events r)).
Proof. unfold written. now intros ->. Qed.

Section PrinterFurther.
Context `{Collaborators}.

Lemma Transaction_outcome cls h entry :
  outcome (LedgerPrinter.Transaction cls h entry)
  = outcome (for_each
               (data.txn_postings (fill_residual_posting entry ROUNDING_ACCOUNT))
               (cls_Posting cls h)).
Proof.
  unfold LedgerPrinter.Transaction, LedgerPrinter.call_fill_residual_posting.
  unfold mbind, run_bind, mret, run_ret, emit, write. simpl. reflexivity.
Qed.

Lemma HLedger_Posting_run h posting :
  outcome (HLedgerPrinter.Posting h posting) = inr tt
  /\ classifier_calls (events (HLedgerPrinter.Posting h posting)) = 0.
Proof.
  unfold HLedgerPrinter.Posting.
  destruct (HLedgerPrinter.strs posting) as [amount_str cost_str].
  split; reflexivity.
Qed.

Lemma for_each_no_calls {A : Type} (body : A -> run unit) l :
  (forall x, classifier_calls (events (body x)) = 0) ->
  classifier_calls (events (for_each l body)) = 0.
Proof.
  intros Hbody. induction l as [|x l IH]; [reflexivity|].
  simpl. rewrite events_bind, classifier_calls_app, Hbody.
  now destruct (outcome (body x)).
Qed.

Lemma HLedger_call_run (h : heap) (obj : data.Directive) :
  (exists text, outcome (HLedgerPrinter.call h obj) = inr text)
  /\ classifier_calls (events (HLedgerPrinter.call h obj)) = 0.
Proof.
  unfold HLedgerPrinter.call, LedgerPrinter.call.
  destruct obj as [entry| | | | | | | |];
    cbn [LedgerPrinter.method events outcome];
    try (split; [eexists; reflexivity|reflexivity]).
  split.
  - erewrite written_ok; [eexists; reflexivity|].
    rewrite Transaction_outcome. apply for_each_outcome, Forall_forall.
    intros posting _. apply HLedger_Posting_run.
  - destruct (Transaction_events HLedgerPrinter.cls h entry) as [header ->].
    cbn [classifier_calls]. apply for_each_no_calls.
    intros posting. apply HLedger_Posting_run.
Qed.

(** X9: the HLedger printer never raises and never calls the classifier,
    whatever the directive and the store. *)
Theorem HLedgerPrinter_never_raises (h : heap) (obj : data.Directive) :
  (exists text, outcome (HLedgerPrinter.call h obj) = inr text)
  /\ classifier_calls (events (HLedgerPrinter.call h obj)) = 0.
Proof.
  destruct (HLedger_call_run h obj) as [[text Htext] Hcalls].
  split; [now exists text|exact Hcalls].
Qed.

(** X10: with the Ledger printer only a transaction can raise: every other
    directive is rendered. *)
Theorem LedgerPrinter_raises_on_transactions_only
    (h : heap) (obj : data.Directive) :
  (forall entry, obj <> data.DTransaction entry) ->
  exists text, outcome (LedgerPrinter.call LedgerPrinter.cls h obj) = inr text.
Proof.
  intros Hobj. unfold LedgerPrinter.call.
  destruct obj as [entry|entry|entry|entry|entry|entry|entry|entry|entry];
    simpl; try (eexists; reflexivity).
  - now destruct (Hobj entry).
  - unfold LedgerPrinter.Open, written.
    destruct (list_truth _); simpl; eexists; reflexivity.
Qed.

Lemma Ledger_Posting_renderable h posting :
  renderable h posting -> outcome (LedgerPrinter.Posting h posting) = inr tt.
Proof.
  intros Hr. unfold LedgerPrinter.Posting.
  destruct (LedgerPrinter.strs posting) as [amount_str cost_str].
  destruct (data.posting_price posting) as [price|] eqn:Hprice;
    [reflexivity|].
  destruct Hr as [[? ?]|([pos Hpos] & r & entry & Hentry & Hstore & Hall)];
    [congruence|].
  rewrite Hentry, (call_postings_by_type_found _ _ _ Hstore).
  unfold postings_by_type. rewrite loop_classify by exact Hall. simpl.
  destruct (list_truth _ && list_truth _); [|reflexivity].
  rewrite Hpos. now destruct (position.cost (position.lot pos)).
Qed.

(** X11: the Ledger printer renders a transaction when every posting of
    the transaction that the balancer returns has a price, or has a position
    and refers to a transaction of the store all of whose postings have
    one. *)
Theorem LedgerPrinter_Transaction_rendered
    (h : heap) (entry : data.Transaction) :
  Forall (renderable h)
    (data.txn_postings (fill_residual_posting entry ROUNDING_ACCOUNT)) ->
  exists text,
    outcome (LedgerPrinter.call LedgerPrinter.cls h (data.DTransaction entry))
    = inr text.
Proof.
  intros Hall. unfold LedgerPrinter.call.
  cbn [LedgerPrinter.method events outcome].
  erewrite written_ok; [eexists; reflexivity|].
  rewrite Transaction_outcome. apply for_each_outcome.
  eapply Forall_impl; [exact Hall|]. intros posting.
  apply Ledger_Posting_renderable.
Qed.

(** X12: the Ledger printer raises [AttributeError] on a posting that has
    neither a position nor a price and is one of the postings of the
    transaction it refers to: the classifier meets the posting itself. *)
Theorem LedgerPrinter_Posting_bare_raises
    (h : heap) (r : data.ref) (entry : data.Transaction)
    (posting : data.Posting) :
  h !! r = Some entry ->
  data.posting_entry posting = Some r ->
  posting ∈ data.txn_postings entry ->
  data.posting_position posting = None ->
  data.posting_price posting = None ->
  written (LedgerPrinter.Posting h posting) = inl AttributeError.
Proof.
  intros Hstore Hentry Hin Hpos Hprice.
  unfold LedgerPrinter.Posting.
  destruct (LedgerPrinter.strs posting) as [amount_str cost_str].
  rewrite Hprice, Hentry, (call_postings_by_type_found _ _ _ Hstore).
  unfold postings_by_type. rewrite loop_no_position; [reflexivity|].
  intros Hall. rewrite Forall_forall in Hall.
  destruct (Hall posting Hin) as [pos Hsome]. congruence.
Qed.

Lemma HLedger_Posting_events h posting :
  HLedgerPrinter.Posting h posting
  = Run [Write (pystr.rstrip
                  (HLedgerPrinter.posting_format
                     (LedgerPrinter.flag_posting posting)
                     (quote_currency (HLedgerPrinter.strs posting).1)
                     (quote_currency (HLedgerPrinter.strs posting).2)));
         Write LF]
        (inr tt).
Proof.
  unfold HLedgerPrinter.Posting.
  now destruct (HLedgerPrinter.strs posting) as [amount_str cost_str].
Qed.

Lemma HLedger_bare_line fp :
  pystr.rstrip (HLedgerPrinter.posting_format fp "" "")
  = pystr.rstrip ("  " +:+ fp).
Proof.
  unfold HLedgerPrinter.posting_format, pystr.ljust, pystr.rjust.
  rewrite <- (rstrip_app_isspace ("  " +:+ fp)
                (pystr.spaces (64 - String.length fp)
                 +:+ " " +:+ pystr.spaces 16 +:+ " " +:+ pystr.spaces 16)).
  - f_equal. rewrite !str_app_nil_r. simpl. now rewrite !str_app_assoc.
  - rewrite !str_all_app, !all_isspace_spaces. reflexivity.
Qed.

(** X13: the HLedger printer renders a posting without a position as a
    bare account line: the indentation, the flag and the account, and
    nothing of the price. *)
Theorem HLedgerPrinter_Posting_bare (h : heap) (posting : data.Posting) :
  data.posting_position posting = None ->
  written (HLedgerPrinter.Posting h posting)
  = inr (pystr.rstrip ("  " +:+ LedgerPrinter.flag_posting posting) +:+ LF).
Proof.
  intros Hpos. rewrite HLedger_Posting_events.
  unfold written. cbn [outcome events getvalue]. f_equal.
  rewrite str_app_nil_r. f_equal.
  unfold HLedgerPrinter.strs. rewrite Hpos. cbn [fst snd].
  unfold quote_currency. rewrite sub_nil. apply HLedger_bare_line.
Qed.

Lemma Ledger_Posting_calls h posting :
  classifier_calls (events (LedgerPrinter.Posting h posting))
  = match data.posting_price posting with
    | Some _ => 0
    | None => 1
    end.
Proof.
  unfold LedgerPrinter.Posting, call_postings_by_type.
  destruct (LedgerPrinter.strs posting) as [amount_str cost_str].
  destruct (data.posting_price posting) as [price|]; [reflexivity|].
  cbn [mbind run_bind emit events outcome].
  destruct (data.posting_entry posting ≫= (h !!.)) as [entry|];
    [|reflexivity].
  unfold lift. cbn [events outcome].
  destruct (postings_by_type entry) as [e|[[ps pp] pc]]; [reflexivity|].
  destruct (list_truth pp && list_truth pc); [|reflexivity].
  destruct (data.posting_position posting) as [pos|]; [|reflexivity].
  now destruct (position.cost (position.lot pos)).
Qed.

Lemma for_each_calls {A : Type} (body : A -> run unit) (f : A -> nat) l :
  (forall x, classifier_calls (events (body x)) = f x) ->
  outcome (for_each l body) = inr tt ->
  classifier_calls (events (for_each l body)) = sum_list_with f l.
Proof.
  intros Hbody. induction l as [|x l IH]; [reflexivity|].
  simpl. rewrite outcome_bind, events_bind, classifier_calls_app, Hbody.
  destruct (outcome (body x)) as [e|[]]; [discriminate|].
  intros Hl. now rewrite (IH Hl).
Qed.

(** X14: when the Ledger printer renders a transaction, it calls the
    classifier once for each posting without a price, and not for the
    others. *)
Theorem LedgerPrinter_classifier_calls
    (h : heap) (entry : data.Transaction) (text : string) :
  outcome (LedgerPrinter.call LedgerPrinter.cls h (data.DTransaction entry))
    = inr text ->
  classifier_calls
    (events (LedgerPrinter.call LedgerPrinter.cls h (data.DTransaction entry)))
  = sum_list_with
      (fun posting => match data.posting_price posting with
                      | Some _ => 0
                      | None => 1
                      end)
      (data.txn_postings (fill_residual_posting entry ROUNDING_ACCOUNT)).
Proof.
  unfold LedgerPrinter.call. cbn [LedgerPrinter.method events outcome].
  unfold written. rewrite Transaction_outcome.
  destruct (Transaction_events LedgerPrinter.cls h entry) as [header ->].
  cbn [classifier_calls].
  destruct (outcome (for_each _ _)) as [e|[]] eqn:Hout; [discriminate|].
  intros _. apply for_each_calls; [|exact Hout].
  intros posting. apply Ledger_Posting_calls.
Qed.

Lemma getvalue_app evs1 evs2 :
  getvalue (evs1 ++ evs2) = getvalue evs1 +:+ getvalue evs2.
Proof.
  induction evs1 as [|ev evs1 IH]; [reflexivity|].
  destruct ev; simpl; rewrite IH; [reflexivity|reflexivity|].
  now rewrite str_app_assoc.
Qed.

Lemma written_line (m : run string) (f : string -> string) text :
  getvalue (events m) = "" ->
  written (m ≫= (fun price_str => write (pystr.rstrip (f price_str)) ;; write LF))
    = inr text ->
  exists line, text = line +:+ LF /\ pystr.rstrip line = line.
Proof.
  intros Hm. unfold written. rewrite outcome_bind, events_bind.
  destruct (outcome m) as [e|price_str]; [discriminate|].
  rewrite getvalue_app, Hm. cbn [mbind run_bind write emit events outcome].
  intros [= <-]. exists (pystr.rstrip (f price_str)).
  split; [|apply rstrip_idem].
  reflexivity.
Qed.

(** X15: a posting line, with either printer, is a text without trailing
    white space followed by one line feed. *)
Theorem Posting_line_stripped (h : heap) (posting : data.Posting) :
  (exists line,
      written (HLedgerPrinter.Posting h posting) = inr (line +:+ LF)
      /\ pystr.rstrip line = line)
  /\ (forall text,
        written (LedgerPrinter.Posting h posting) = inr text ->
        exists line, text = line +:+ LF /\ pystr.rstrip line = line).
Proof.
  split.
  - rewrite HLedger_Posting_events. eexists. split; [|apply rstrip_idem].
    unfold written. cbn [outcome events getvalue].
    now rewrite str_app_nil_r.
  - intros text. unfold LedgerPrinter.Posting.
    destruct (LedgerPrinter.strs posting) as [amount_str cost_str].
    apply (written_line _
             (fun price_str =>
                LedgerPrinter.posting_format
                  (LedgerPrinter.flag_posting posting)
                  (quote_currency amount_str) (quote_currency cost_str)
                  (quote_currency price_str))).
    destruct (data.posting_price posting) as [price|]; [reflexivity|].
    unfold call_postings_by_type.
    cbn [mbind run_bind emit events outcome].
    destruct (data.posting_entry posting ≫= (h !!.)) as [entry|];
      [|reflexivity].
    unfold lift. cbn [events outcome].
    destruct (postings_by_type entry) as [e|[[ps pp] pc]]; [reflexivity|].
    destruct (list_truth pp && list_truth pc); [|reflexivity].
    destruct (data.posting_position posting) as [pos|]; [|reflexivity].
    now destruct (position.cost (position.lot pos)).
Qed.

Lemma sub_spaces k y :
  sub None (pystr.spaces k +:+ y) = pystr.spaces k +:+ sub None y.
Proof.
  induction k as [|k IH]; [reflexivity|].
  change (pystr.spaces (S k) +:+ y) with ("" +:+ String " " (pystr.spaces k +:+ y)).
  rewrite sub_separator by reflexivity. rewrite sub_nil, IH. reflexivity.
Qed.

Lemma sub_padded x k z :
  sub None (x +:+ pystr.spaces k +:+ String " " z)
  = sub None x +:+ pystr.spaces k +:+ String " " (sub None z).
Proof.
  assert (Hz : sub None (String " " z) = String " " (sub None z)).
  { change (String " " z) with ("" +:+ String " " z).
    rewrite sub_separator by reflexivity. now rewrite sub_nil. }
  destruct k as [|k].
  - change (pystr.spaces 0 +:+ String " " z) with (String " " z).
    rewrite sub_separator by reflexivity. reflexivity.
  - change (pystr.spaces (S k) +:+ String " " z)
      with (String " " (pystr.spaces k +:+ String " " z)).
    rewrite sub_separator by reflexivity.
    now rewrite sub_spaces, Hz.
Qed.

(** X16: the line of a Price directive is quoted field by field, after
    the padding: [P], the date, the time, the currency and the amount are
    each quoted on their own, and the padding of the currency and of the
    amount is computed before the quotes are added. *)
Theorem Price_rendering (cls : PrinterClass) (h : heap) (entry : data.Price) :
  let currency := data.price_currency entry in
  let amount := Amount_to_string (data.price_amount entry) in
  outcome (LedgerPrinter.call cls h (data.DPrice entry))
  = inr ("P " +:+ quote_currency (date_format (data.price_date entry))
         +:+ " 00:00:00 "
         +:+ quote_currency currency
         +:+ pystr.spaces (16 - String.length currency)
         +:+ " " +:+ pystr.spaces (16 - String.length amount)
         +:+ quote_currency amount +:+ LF).
Proof.
  intros currency amount. unfold LedgerPrinter.call, written.
  cbn [LedgerPrinter.method]. unfold LedgerPrinter.Price, write, emit.
  cbn [events outcome getvalue]. f_equal. rewrite str_app_nil_r.
  fold currency amount. unfold quote_currency, pystr.ljust, pystr.rjust.
  set (d := date_format (data.price_date entry)).
  change ("P " +:+ d +:+ " 00:00:00 "
          +:+ (currency +:+ pystr.spaces (16 - String.length currency))
          +:+ " " +:+ (pystr.spaces (16 - String.length amount) +:+ amount)
          +:+ LF)
    with ("P" +:+ String " "
            (d +:+ String " "
               ("00:00:00" +:+ String " "
                  ((currency +:+ pystr.spaces (16 - String.length currency))
                   +:+ String " "
                       ((pystr.spaces (16 - String.length amount) +:+ amount)
                        +:+ LF))))).
  repeat rewrite str_app_assoc.
  rewrite (sub_separator " " _ "P") by reflexivity.
  rewrite (sub_separator " " _ d) by reflexivity.
  rewrite (sub_separator " " _ "00:00:00") by reflexivity.
  rewrite sub_padded, sub_spaces.
  rewrite (sub_separator (ascii_of_nat 10) "" amount) by reflexivity.
  rewrite sub_nil.
  change (sub None "P") with "P". change (sub None "00:00:00") with "00:00:00".
  simpl. repeat rewrite str_app_assoc. reflexivity.
Qed.

(** X17: the comments of the tags and of the links are in the header in
    the order of the code points of the tags and links, one for each, however
    the sets enumerate them. *)
Theorem tag_strings_sorted (tags links : gset string) :
  (exists l,
      LedgerPrinter.tag_strings (Some tags)
      = (fun tag => ";; Tag: #" +:+ tag) <$> l
      /\ l ≡ₚ elements tags /\ StronglySorted String.le l)
  /\ (exists l,
        LedgerPrinter.link_strings (Some links)
        = (fun link => ";; Link: ^" +:+ link) <$> l
        /\ l ≡ₚ elements links /\ StronglySorted String.le l).
Proof.
  unfold LedgerPrinter.tag_strings, LedgerPrinter.link_strings, pystr.sorted.
  split.
  - destruct (decide (tags = ∅)) as [->|_].
    + exists []. rewrite elements_empty. repeat split; constructor.
    + exists (merge_sort String.le (elements tags)).
      split; [reflexivity|]. split; [apply merge_sort_Permutation|].
      apply StronglySorted_merge_sort; apply _.
  - destruct (decide (links = ∅)) as [->|_].
    + exists []. rewrite elements_empty. repeat split; constructor.
    + exists (merge_sort String.le (elements links)).
      split; [reflexivity|]. split; [apply merge_sort_Permutation|].
      apply StronglySorted_merge_sort; apply _.
Qed.
End PrinterFurther.

(** ** The reports *)

Lemma render_with_app printer entries1 entries2 :
  render_with printer (entries1 ++ entries2)
  = match raised (render_with printer entries1) with
    | Some _ => render_with printer entries1
    | None =>
        Rendering (file (render_with printer entries1)
                   +:+ file (render_with printer entries2))
                  (raised (render_with printer entries2))
    end.
Proof.
  induction entries1 as [|entry entries1 IH]; simpl.
  - now destruct (render_with printer entries2).
  - destruct (outcome (printer entry)) as [e|text]; [reflexivity|].
    rewrite IH. simpl.
    destruct (render_with printer entries1) as [text1 [e|]]; simpl;
      [reflexivity|].
    now repeat rewrite str_app_assoc.
Qed.

Lemma join_empty_cons x l : pystr.join "" (x :: l) = x +:+ pystr.join "" l.
Proof. destruct l; simpl; [now rewrite str_app_nil_r|reflexivity]. Qed.

Section ReportProperties.
Context `{Collaborators}.

(** X18: a report on two ledgers one after the other is the report on the
    first followed by the report on the second, unless the first raises:
    then nothing of the second is written. *)
Theorem render_ledger_app (h : heap) (entries1 entries2 : list data.Directive) :
  LedgerReport.render_ledger h (entries1 ++ entries2)
  = match raised (LedgerReport.render_ledger h entries1) with
    | Some _ => LedgerReport.render_ledger h entries1
    | None =>
        Rendering (file (LedgerReport.render_ledger h entries1)
                   +:+ file (LedgerReport.render_ledger h entries2))
                  (raised (LedgerReport.render_ledger h entries2))
    end.
Proof.
  unfold LedgerReport.render_ledger. cbv zeta. apply render_with_app.
Qed.

(** X19: the HLedger report never raises: it writes, for every
    directive of the ledger in order, what the printer returns and a line
    feed. *)
Theorem render_hledger_complete (h : heap) (entries : list data.Directive) :
  raised (HLedgerReport.render_hledger h entries) = None
  /\ exists texts,
       Forall2 (fun obj text => outcome (HLedgerPrinter.call h obj) = inr text)
         entries texts
       /\ file (HLedgerReport.render_hledger h entries)
          = pystr.join "" ((fun text => text +:+ LF) <$> texts).
Proof.
  unfold HLedgerReport.render_hledger.
  cbv zeta.
  induction entries as [|obj entries [IHr (texts & IHt & IHf)]];
    cbn [render_with].
  - split; [reflexivity|]. exists []. split; [constructor|reflexivity].
  - destruct (HLedger_call_run h obj) as [[text Hobj] _]. rewrite Hobj.
    cbn [file raised].
    split; [exact IHr|]. exists (text :: texts).
    split; [now constructor|]. rewrite IHf.
    rewrite fmap_cons, join_empty_cons. now rewrite str_app_assoc.
Qed.

(** X20: on a ledger without transactions and without account openings
    the two reports are the same. *)
Theorem reports_agree (h : heap) (entries : list data.Directive) :
  Forall (fun obj => overridden obj = false) entries ->
  HLedgerReport.render_hledger h entries = LedgerReport.render_ledger h entries.
Proof.
  unfold HLedgerReport.render_hledger, LedgerReport.render_ledger.
  cbv zeta.
  induction 1 as [|obj entries Hobj _ IH]; [reflexivity|].
  cbn [render_with]. rewrite IH.
  assert (Hsame : HLedgerPrinter.call h obj
                  = LedgerPrinter.call LedgerPrinter.cls h obj)
    by (destruct obj; try discriminate; reflexivity).
  now rewrite Hsame.
Qed.
End ReportProperties.

(** ** The residual balancer *)

Lemma for_each_split {A : Type} (body : A -> run unit) l :
  exists done rest,
    l = done ++ rest
    /\ Forall (fun x => outcome (body x) = inr tt) done
    /\ events (for_each l body)
       = flat_map (fun x => events (body x)) done
         ++ match rest with
            | [] => []
            | x :: _ => events (body x)
            end
    /\ match rest with
       | [] => outcome (for_each l body) = inr tt
       | x :: _ =>
           exists e, outcome (body x) = inl e
                     /\ outcome (for_each l body) = inl e
       end.
Proof.
  induction l as [|x l (done & rest & Hl & Hdone & Hev & Hout)].
  - exists [], []. repeat split. constructor.
  - destruct (outcome (body x)) as [e|[]] eqn:Hx.
    + exists [], (x :: l). cbn [for_each flat_map app].
      rewrite events_bind, outcome_bind, Hx, app_nil_r.
      split; [reflexivity|]. split; [constructor|].
      split; [reflexivity|]. exists e. split; reflexivity.
    + exists (x :: done), rest. cbn [for_each flat_map].
      rewrite events_bind, outcome_bind, Hx, Hev, <- app_assoc. subst l.
      split; [reflexivity|]. split; [now constructor|].
      split; [reflexivity|exact Hout].
Qed.

Lemma getvalue_flat_map {A : Type} (body : A -> run unit) done :
  Forall (fun x => outcome (body x) = inr tt) done ->
  exists lines,
    Forall2 (fun x line => written (body x) = inr line) done lines
    /\ getvalue (flat_map (fun x => events (body x)) done)
       = fold_right String.append "" lines.
Proof.
  induction 1 as [|x done Hx _ (lines & Hlines & Hget)].
  - exists []. split; [constructor|reflexivity].
  - exists (getvalue (events (body x)) :: lines). split.
    + constructor; [|exact Hlines]. unfold written. now rewrite Hx.
    + cbn [flat_map fold_right]. now rewrite getvalue_app, Hget.
Qed.

Lemma header_strings (entry : data.Transaction) :
  let strings :=
    [] ++ LedgerPrinter.tag_strings (data.txn_tags entry) in
  let strings := strings ++ LedgerPrinter.link_strings (data.txn_links entry) in
  let strings :=
    if pystr.truthy (data.txn_payee entry)
    then strings ++ [default "" (data.txn_payee entry) +:+ " |"]
    else strings in
  (if pystr.truthy (Some (data.txn_narration entry))
   then strings ++ [data.txn_narration entry]
   else strings)
  = LedgerPrinter.tag_strings (data.txn_tags entry)
      ++ LedgerPrinter.link_strings (data.txn_links entry)
      ++ match data.txn_payee entry with
         | Some (String c payee) => [String c payee +:+ " |"]
         | _ => []
         end
      ++ match data.txn_narration entry with
         | EmptyString => []
         | String c narration => [String c narration]
         end.
Proof.
  cbv zeta. rewrite app_nil_l.
  destruct (data.txn_payee entry) as [[|c payee]|];
    destruct (data.txn_narration entry) as [|c' narration];
    cbn [pystr.truthy pystr.is_empty negb default from_option id];
    rewrite <- ?app_assoc, ?app_nil_r; reflexivity.
Qed.

(** C7: for both printers and every transaction, the first thing that
    rendering does is to call the residual balancer on the transaction and
    the account [Equity:Rounding], and nothing that follows is a call to
    the balancer.  What follows is the header of the transaction that the
    balancer returned and, for its postings in order, the classifier calls
    and the writes of each posting: of all of them with the HLedger printer,
    and with the Ledger printer up to the first posting that raises, if one
    does; the text returned is the header and the lines of these postings.
    With a balancer that adds a posting of 0.005 USD on the rounding
    account, the rendering of a transaction with one posting has both
    lines. *)
Theorem fill_residual_posting_once :
  let nl := String "010"%char "" in
  (forall (C : Collaborators) (h : heap) (entry : data.Transaction),
      let filled := fill_residual_posting entry "Equity:Rounding" in
      let strings :=
        LedgerPrinter.tag_strings (data.txn_tags filled)
          ++ LedgerPrinter.link_strings (data.txn_links filled)
          ++ match data.txn_payee filled with
             | Some (String c payee) => [String c payee +:+ " |"]
             | _ => []
             end
          ++ match data.txn_narration filled with
             | EmptyString => []
             | String c narration => [String c narration]
             end in
      let header :=
        date_format (data.txn_date filled)
        +:+ " " +:+ default "" (data.txn_flag filled)
        +:+ " " +:+ pystr.join " " strings +:+ nl in
      let ledger :=
        LedgerPrinter.call LedgerPrinter.cls h (data.DTransaction entry) in
      let hledger := HLedgerPrinter.call h (data.DTransaction entry) in
      let hledger_line posting :=
        pystr.rstrip
          (HLedgerPrinter.posting_format (LedgerPrinter.flag_posting posting)
             (quote_currency (HLedgerPrinter.strs posting).1)
             (quote_currency (HLedgerPrinter.strs posting).2)) in
      (exists done rest lines,
          data.txn_postings filled = done ++ rest
          /\ Forall2 (fun posting line =>
                        written (LedgerPrinter.Posting h posting) = inr line)
               done lines
          /\ events ledger
             = CallFillResidual entry "Equity:Rounding" :: Write header
                 :: flat_map
                      (fun posting => events (LedgerPrinter.Posting h posting))
                      done
                 ++ match rest with
                    | [] => []
                    | posting :: _ => events (LedgerPrinter.Posting h posting)
                    end
          /\ match rest with
             | [] =>
                 outcome ledger
                 = inr (header +:+ fold_right String.append "" lines)
             | posting :: _ =>
                 exists e,
                   written (LedgerPrinter.Posting h posting) = inl e
                   /\ outcome ledger = inl e
             end)
      /\ Forall (fun ev => ~ is_fill ev) (tail (events ledger))
      /\ Forall (fun ev => ~ is_fill ev) (tail (events hledger))
      /\ events hledger
         = CallFillResidual entry "Equity:Rounding" :: Write header
             :: flat_map
                  (fun posting => [Write (hledger_line posting); Write nl])
                  (data.txn_postings filled)
      /\ outcome hledger
         = inr (header
                +:+ fold_right String.append ""
                      ((fun posting => hledger_line posting +:+ nl)
                         <$> data.txn_postings filled)))
  /\ events (@LedgerPrinter.call demo.collaborators_rounding
               (@LedgerPrinter.cls demo.collaborators_rounding)
               demo.objects_rounded (data.DTransaction demo.fees))
     = [CallFillResidual demo.fees "Equity:Rounding";
        Write ("2014/11/04  Fees" +:+ nl);
        CallPostingsByType (Some 7);
        Write "  Expenses:Commissions                                                     9.95 USD";
        Write nl;
        CallPostingsByType (Some 7);
        Write "  Equity:Rounding                                                         0.005 USD";
        Write nl]
  /\ outcome (@LedgerPrinter.call demo.collaborators_rounding
                (@LedgerPrinter.cls demo.collaborators_rounding)
                demo.objects_rounded (data.DTransaction demo.fees))
     = inr ("2014/11/04  Fees" +:+ nl
            +:+ "  Expenses:Commissions                                                     9.95 USD"
            +:+ nl
            +:+ "  Equity:Rounding                                                         0.005 USD"
            +:+ nl)
  /\ events (@HLedgerPrinter.call demo.collaborators_rounding
               demo.objects_rounded (data.DTransaction demo.fees))
     = [CallFillResidual demo.fees "Equity:Rounding";
        Write ("2014/11/04  Fees" +:+ nl);
        Write "  Expenses:Commissions                                                     9.95 USD";
        Write nl;
        Write "  Equity:Rounding                                                         0.005 USD";
        Write nl]
  /\ outcome (@HLedgerPrinter.call demo.collaborators_rounding
                demo.objects_rounded (data.DTransaction demo.fees))
     = inr ("2014/11/04  Fees" +:+ nl
            +:+ "  Expenses:Commissions                                                     9.95 USD"
            +:+ nl
            +:+ "  Equity:Rounding                                                         0.005 USD"
            +:+ nl).
Proof.
  intros nl. split; [|repeat split; vm_compute; reflexivity].
  intros C h entry filled strings header ledger hledger hledger_line.
  assert (Hrun : forall cls,
    LedgerPrinter.Transaction cls h entry
    = Run (CallFillResidual entry "Equity:Rounding" :: Write header
             :: events (for_each (data.txn_postings filled)
                          (cls_Posting cls h)))
          (outcome (for_each (data.txn_postings filled) (cls_Posting cls h)))).
  { intros cls. pose proof (header_strings filled) as Hs. cbv zeta in Hs.
    unfold LedgerPrinter.Transaction.
    cbv beta iota zeta delta
      [mbind run_bind mret run_ret emit write outcome events
       LedgerPrinter.call_fill_residual_posting].
    change (fill_residual_posting entry ROUNDING_ACCOUNT) with filled.
    rewrite Hs. fold strings.
    assert (Hflag :
      (if pystr.truthy (data.txn_flag filled)
       then default "" (data.txn_flag filled) else "")
      = default "" (data.txn_flag filled))
      by (destruct (data.txn_flag filled) as [[|c flag]|]; reflexivity).
    rewrite Hflag. reflexivity. }
  split; [|split; [|split; [|split]]].
  - subst ledger. unfold LedgerPrinter.call, written.
    cbn [LedgerPrinter.method]. rewrite Hrun. cbn [events outcome].
    destruct (for_each_split (LedgerPrinter.Posting h)
                (data.txn_postings filled))
      as (done & rest & Hl & Hdone & Hev & Hout).
    destruct (getvalue_flat_map (LedgerPrinter.Posting h) done Hdone)
      as (lines & Hlines & Hget).
    exists done, rest, lines. split; [exact Hl|]. split; [exact Hlines|].
    change (cls_Posting LedgerPrinter.cls h) with (LedgerPrinter.Posting h).
    rewrite Hev. split; [reflexivity|].
    destruct rest as [|posting rest].
    + rewrite Hout, app_nil_r. cbn [getvalue]. now rewrite Hget.
    + destruct Hout as (e & Hposting & Hout). exists e.
      unfold written. now rewrite Hposting, Hout.
  - subst ledger. unfold LedgerPrinter.call. cbn [LedgerPrinter.method].
    rewrite Hrun. cbn [events tail].
    constructor; [simpl; tauto|].
    apply for_each_events. intros posting. apply Ledger_Posting_no_fill.
  - subst hledger. unfold HLedgerPrinter.call, LedgerPrinter.call.
    cbn [LedgerPrinter.method]. rewrite Hrun. cbn [events tail].
    constructor; [simpl; tauto|].
    apply for_each_events. intros posting. apply HLedger_Posting_no_fill.
  - subst hledger. unfold HLedgerPrinter.call, LedgerPrinter.call.
    cbn [LedgerPrinter.method]. rewrite Hrun. cbn [events].
    do 2 f_equal. clear Hrun.
    change (cls_Posting HLedgerPrinter.cls h) with (HLedgerPrinter.Posting h).
    induction (data.txn_postings filled) as [|posting postings IH];
      [reflexivity|].
    cbn [for_each flat_map]. rewrite events_bind, IH.
    rewrite (HLedger_Posting_events h posting). reflexivity.
  - subst hledger. unfold HLedgerPrinter.call, LedgerPrinter.call, written.
    cbn [LedgerPrinter.method]. rewrite Hrun. cbn [events outcome].
    change (cls_Posting HLedgerPrinter.cls h) with (HLedgerPrinter.Posting h).
    assert (Hok : outcome (for_each (data.txn_postings filled)
                             (HLedgerPrinter.Posting h)) = inr tt).
    { apply for_each_outcome, Forall_forall. intros posting _.
      apply HLedger_Posting_run. }
    rewrite Hok. cbn [getvalue]. do 2 f_equal. clear Hrun Hok.
    induction (data.txn_postings filled) as [|posting postings IH];
      [reflexivity|].
    cbn [for_each]. rewrite events_bind, getvalue_app.
    rewrite (HLedger_Posting_events h posting). cbn [events outcome getvalue].
    rewrite IH. cbn [fmap list_fmap fold_right]. rewrite str_app_nil_r.
    rewrite !str_app_assoc. reflexivity.
Qed.

(** ** The sample ledgers, further *)

Lemma LedgerPrinter_raises_on_transactions_only_witness :
  exists text,
    outcome (@LedgerPrinter.call demo.collaborators
               (@LedgerPrinter.cls demo.collaborators) demo.objects
               (data.DNote demo.note))
    = inr text.
Proof.
  apply (@LedgerPrinter_raises_on_transactions_only demo.collaborators
           demo.objects (data.DNote demo.note)).
  intros entry. discriminate.
Defined.

Lemma LedgerPrinter_Transaction_rendered_witness :
  exists text,
    outcome (@LedgerPrinter.call demo.collaborators
               (@LedgerPrinter.cls demo.collaborators) demo.objects
               (data.DTransaction demo.buy_stock))
    = inr text.
Proof.
  apply (@LedgerPrinter_Transaction_rendered demo.collaborators).
  assert (Hall : Forall has_position (data.txn_postings demo.buy_stock))
    by (repeat constructor; eexists; reflexivity).
  change (Forall (renderable demo.objects)
            [demo.goog 1; demo.commission 1; demo.cash 1]).
  constructor; [|constructor; [|constructor; [|constructor]]].
  - right. split; [eexists; reflexivity|].
    exists 1, demo.buy_stock.
    split; [reflexivity|]. split; [reflexivity|exact Hall].
  - right. split; [eexists; reflexivity|].
    exists 1, demo.buy_stock.
    split; [reflexivity|]. split; [reflexivity|exact Hall].
  - left. eexists. reflexivity.
Defined.

Lemma LedgerPrinter_Posting_bare_raises_witness :
  written (@LedgerPrinter.Posting demo.collaborators demo.objects (demo.bare 2))
  = inl AttributeError.
Proof.
  apply (@LedgerPrinter_Posting_bare_raises demo.collaborators demo.objects 2
           demo.buy_stock_incomplete).
  - reflexivity.
  - reflexivity.
  - apply list_elem_of_further, list_elem_of_further, list_elem_of_here.
  - reflexivity.
  - reflexivity.
Defined.

Lemma HLedgerPrinter_Posting_bare_witness :
  written (@HLedgerPrinter.Posting demo.collaborators demo.objects (demo.bare 2))
  = inr ("  Equity:Opening" +:+ LF).
Proof.
  apply (@HLedgerPrinter_Posting_bare demo.collaborators demo.objects
           (demo.bare 2)).
  reflexivity.
Defined.

Lemma LedgerPrinter_classifier_calls_witness :
  classifier_calls
    (events (@LedgerPrinter.call demo.collaborators
               (@LedgerPrinter.cls demo.collaborators) demo.objects
               (data.DTransaction demo.buy_stock)))
  = 2.
Proof.
  destruct (outcome (@LedgerPrinter.call demo.collaborators
                       (@LedgerPrinter.cls demo.collaborators) demo.objects
                       (data.DTransaction demo.buy_stock)))
    as [e|text] eqn:Hout; [discriminate|].
  exact (@LedgerPrinter_classifier_calls demo.collaborators demo.objects
           demo.buy_stock text Hout).
Defined.

Lemma reports_agree_witness :
  @HLedgerReport.render_hledger demo.collaborators demo.objects demo.remarks
  = @LedgerReport.render_ledger demo.collaborators demo.objects demo.remarks.
Proof.
  apply (@reports_agree demo.collaborators). repeat constructor.
Defined.
